(** * Gandiva projector (cpp/src/gandiva/projector.cc)

    A shallow embedding of the projector's cache key, of the build
    orchestration [Projector::Make], of the two evaluation entry points and
    of the buffer planner / buffer validator, followed by the properties
    the specification states about them.

    Conventions of the embedding:
    - [int64_t] values are [Z]; the arithmetic the source performs on them
      is written with its two's-complement wrap-around ([Int64.add],
      [Int64.mul]);
    - a [Status]-returning function is a computation in [res]: [Ok] is
      [Status::OK()] together with the value of the out-parameter, [Raise]
      is an error status, [Faulted] is a C++ run-time fault (a vector index
      past the end, a null pointer dereferenced, a failed reference cast);
    - a [std::shared_ptr<T>] that may be null is an [option T];
    - code of Arrow and Gandiva that lives outside projector.cc (type
      classification, schemas, configurations, the hash combiner, the LLVM
      generator, the cache) is taken abstractly through type classes. *)

From Stdlib Require Import ZArith String Lia Bool.
From stdpp Require Import base decidable option list strings.

Local Open Scope Z_scope.

(** ** Machine integers *)

Module Int64.
Definition modulus : Z := 2 ^ 64.
Definition half_modulus : Z := 2 ^ 63.

(** The representative of [z] in the signed 64-bit range. *)
Definition wrap (z : Z) : Z := (z + half_modulus) mod modulus - half_modulus.

Definition add (a b : Z) : Z := wrap (a + b).
Definition mul (a b : Z) : Z := wrap (a * b).

End Int64.

(** [size_t] and [uint32_t] conversions. *)
Definition to_size_t (z : Z) : Z := z mod 2 ^ 64.
Definition to_uint32 (z : Z) : Z := z mod 2 ^ 32.

(** ** arrow::bit_util *)

(** Modelled from the spec: [arrow::bit_util::BytesForBits] is declared in
    arrow/util/bit_util.h, outside projector.cc.  The specification gives
    it as the number of bytes needed for [bits] bits, [ceil(bits / 8)]. *)
Definition BytesForBits (bits : Z) : Z := - ((- bits) / 8).

(** [m] is the ceiling of [bits / 8]: the least integer with [bits <= 8 m]. *)
Definition is_ceil_div8 (bits m : Z) : Prop := 8 * (m - 1) < bits <= 8 * m.

(** ** Status, results and faults *)

(** The pieces a status message is assembled from
    ([Status::Invalid(a, b, ...)] and [std::stringstream]). *)
Inductive MsgPart : Type :=
| Str (s : string)
| Num (z : Z).

Definition message : Type := list MsgPart.

Inductive StatusCode : Type :=
| Invalid
| OtherCode (code : nat).

Inductive Fault : Type :=
| OutOfBounds (index : nat)
| NullDereference
| BadCast.

Inductive res (A : Type) : Type :=
| Ok (a : A)
| Raise (code : StatusCode) (msg : message)
| Faulted (f : Fault).
Arguments Ok {A} a.
Arguments Raise {A} code msg.
Arguments Faulted {A} f.

Definition res_bind {A B : Type} (f : A -> res B) (m : res A) : res B :=
  match m with
  | Ok a => f a
  | Raise c msg => Raise c msg
  | Faulted x => Faulted x
  end.

#[export] Instance res_ret : MRet res := fun _ a => Ok a.
#[export] Instance res_mbind : MBind res := fun _ _ f m => res_bind f m.

(** [Status::Invalid(...)]. *)
Definition Status_Invalid {A : Type} (msg : message) : res A := Raise Invalid msg.

(** [ARROW_RETURN_IF(condition, status)]. *)
Definition ARROW_RETURN_IF (condition : bool) (status : res unit) : res unit :=
  if condition then status else Ok tt.

(** A status is an invalid-argument failure. *)
Definition is_invalid {A : Type} (r : res A) : Prop :=
  exists msg, r = Raise Invalid msg.

(** [v[i]] on a [std::vector]: past the end the behaviour is undefined. *)
Definition vector_at {A : Type} (v : list A) (i : nat) : res A :=
  match v !! i with
  | Some a => Ok a
  | None => Faulted (OutOfBounds i)
  end.

(** [p->...] on a shared pointer. *)
Definition deref {A : Type} (p : option A) : res A :=
  match p with
  | Some a => Ok a
  | None => Faulted NullDereference
  end.

(** Computations that also thread a state of type [S]. *)
Definition prog (S A : Type) : Type := S -> res A * S.

Definition prog_bind {S A B : Type} (f : A -> prog S B) (m : prog S A) : prog S B :=
  fun s =>
    match m s with
    | (Ok a, s') => f a s'
    | (Raise c msg, s') => (Raise c msg, s')
    | (Faulted x, s') => (Faulted x, s')
    end.

#[export] Instance prog_ret {S} : MRet (prog S) := fun _ a s => (Ok a, s).
#[export] Instance prog_mbind {S} : MBind (prog S) := fun _ _ f m => prog_bind f m.

(** A state transformer as a computation. *)
Definition step {S A : Type} (f : S -> res A * S) : prog S A := f.

(** A pure result used inside a stateful computation. *)
Definition lift {S A : Type} (r : res A) : prog S A := fun s => (r, s).

(** ** Arrow types, fields, buffers *)

(** The type identifiers of Arrow and their classification
    ([arrow::Type::type], [arrow::is_binary_like], [arrow::is_primitive] of
    arrow/type_fwd.h and arrow/type_traits.h). *)
Class ArrowTypes : Type := {
  TypeId : Type;
  TypeId_eq_dec :: EqDecision TypeId;
  DECIMAL : TypeId;
  BOOL : TypeId;
  is_binary_like : TypeId -> bool;
  is_primitive : TypeId -> bool
}.

Section Projector.
Context {arrow_types : ArrowTypes}.

(** [arrow::DataType]: its id, its printed form, and its bit width when
    the object is an [arrow::FixedWidthType]. *)
Record DataType : Type := {
  DataType_id : TypeId;
  DataType_ToString : string;
  DataType_bit_width : option Z
}.

(** [dynamic_cast<const arrow::FixedWidthType&>(type).bit_width()]; the
    reference cast throws when the object is of another class. *)
Definition FixedWidthType_bit_width (type : DataType) : res Z :=
  match DataType_bit_width type with
  | Some w => Ok w
  | None => Faulted BadCast
  end.

Record Field : Type := {
  Field_name : string;
  Field_type : DataType
}.

(** [arrow::Buffer]; [Buffer_resizable] tells whether the object is an
    [arrow::ResizableBuffer].  The bytes themselves are not modelled. *)
Record Buffer : Type := {
  Buffer_size : Z;
  Buffer_capacity : Z;
  Buffer_resizable : bool
}.

Record ArrayData : Type := {
  ArrayData_type : DataType;
  ArrayData_length : Z;
  ArrayData_buffers : list (option Buffer)
}.

(** [arrow::ArrayData::Make(type, length, buffers)]. *)
Definition ArrayData_Make (type : DataType) (length : Z)
    (buffers : list (option Buffer)) : ArrayData :=
  {| ArrayData_type := type; ArrayData_length := length;
     ArrayData_buffers := buffers |}.

(** [dynamic_cast<arrow::ResizableBuffer*>(p.get())]: null for a null
    pointer and for a buffer that is not resizable. *)
Definition as_ResizableBuffer (p : option Buffer) : option Buffer :=
  match p with
  | Some b => if Buffer_resizable b then Some b else None
  | None => None
  end.

(** *** Projector::ValidateArrayDataCapacity *)

Definition ValidateArrayDataCapacity (array_data : ArrayData) (field : Field)
    (num_records : Z) : res unit :=
  let buffers := ArrayData_buffers array_data in
  ARROW_RETURN_IF (Z.of_nat (length buffers) <? 2)
    (Status_Invalid [Str "ArrayData must have at least 2 buffers"]);;
  let min_bitmap_len := BytesForBits num_records in
  b0 ← vector_at buffers 0 ≫= deref;
  let bitmap_len := Buffer_capacity b0 in
  ARROW_RETURN_IF (bitmap_len <? min_bitmap_len)
    (Status_Invalid [Str "Bitmap buffer too small for "; Str (Field_name field);
                     Str " expected minimum "; Num min_bitmap_len;
                     Str " actual size "; Num bitmap_len]);;
  let type_id := DataType_id (Field_type field) in
  if is_binary_like type_id then
    (* validate size of offsets buffer. *)
    let min_offsets_len := BytesForBits (Int64.mul (Int64.add num_records 1) 32) in
    b1 ← vector_at buffers 1 ≫= deref;
    let offsets_len := Buffer_capacity b1 in
    ARROW_RETURN_IF (offsets_len <? min_offsets_len)
      (Status_Invalid [Str "offsets buffer too small for "; Str (Field_name field);
                       Str " minimum required "; Num min_offsets_len;
                       Str " actual "; Num offsets_len]);;
    (* check that it's resizable. *)
    p2 ← vector_at buffers 2;
    let resizable := as_ResizableBuffer p2 in
    ARROW_RETURN_IF (bool_decide (resizable = None))
      (Status_Invalid [Str "data buffer for varlen output vectors must be resizable"]);;
    mret tt
  else if is_primitive type_id || bool_decide (type_id = DECIMAL) then
    (* verify size of data buffer. *)
    bit_width ← FixedWidthType_bit_width (Field_type field);
    let min_data_len := BytesForBits (Int64.mul num_records bit_width) in
    b1 ← vector_at buffers 1 ≫= deref;
    let data_len := Buffer_capacity b1 in
    ARROW_RETURN_IF (data_len <? min_data_len)
      (Status_Invalid [Str "Data buffer too small for "; Str (Field_name field)]);;
    mret tt
  else
    Status_Invalid [Str ("Unsupported output data type " +:+
                         DataType_ToString (Field_type field))].

(** ** The collaborators *)

(** What projector.cc uses of Arrow proper: schemas and record batches,
    the memory pool (arrow/memory_pool.h, arrow/buffer.h) and the hash
    combiner of arrow/util/hash_util.h, at the three types it is used at. *)
Class Arrow : Type := {
  Schema : Type;
  (** [Schema::Equals(other, check_metadata)], and the default value the
      declaration gives to [check_metadata] *)
  Schema_Equals : Schema -> Schema -> bool -> bool;
  check_metadata_default : bool;
  Schema_ToString : Schema -> string;
  RecordBatch : Type;
  RecordBatch_schema : RecordBatch -> Schema;
  RecordBatch_num_rows : RecordBatch -> Z;
  MemoryPool : Type;
  AllocateBuffer : Z -> MemoryPool -> res Buffer * MemoryPool;
  AllocateResizableBuffer : Z -> MemoryPool -> res Buffer * MemoryPool;
  hash_combine_string : Z -> string -> Z;
  hash_combine_size_t : Z -> Z -> Z;
  hash_combine_uint32 : Z -> Z -> Z
}.

(** What projector.cc uses of the rest of Gandiva: configurations,
    selection vectors and their modes, expressions, the LLVM generator and
    the expression validator. *)
Class Gandiva {arrow_lib : Arrow} : Type := {
  Configuration : Type;
  (** [operator==]; [operator!=] is its negation *)
  Configuration_eqb : Configuration -> Configuration -> bool;
  Configuration_Hash : Configuration -> Z;
  DefaultConfiguration : Configuration;
  Mode : Type;
  Mode_eq_dec :: EqDecision Mode;
  MODE_NONE : Mode;
  (** [static_cast<size_t>(mode)] *)
  Mode_to_size_t : Mode -> Z;
  SelectionVector : Type;
  SelectionVector_GetNumSlots : SelectionVector -> Z;
  Expression : Type;
  Expression_ToString : Expression -> string;
  Expression_result : Expression -> Field;
  LLVMGenerator : Type;
  LLVMGenerator_Make : Configuration -> res LLVMGenerator;
  LLVMGenerator_Build : LLVMGenerator -> list Expression -> Mode -> res LLVMGenerator;
  (** the output vectors are written in place; the result carries them
      as they are after the call *)
  LLVMGenerator_Execute : LLVMGenerator -> RecordBatch -> option SelectionVector ->
                          list (option ArrayData) -> res (list (option ArrayData));
  LLVMGenerator_DumpIR : LLVMGenerator -> string;
  (** [ExprValidator(llvm_gen->types(), schema).Validate(expr)] *)
  ExprValidator_Validate : LLVMGenerator -> Schema -> Expression -> res unit
}.

Context {arrow_lib : Arrow} {gandiva_lib : Gandiva}.

(** ** ProjectorCacheKey *)

Record ProjectorCacheKey : Type := {
  key_schema_ : Schema;
  key_configuration_ : Configuration;
  key_mode_ : Mode;
  key_expressions_as_strings_ : list string;
  key_hash_code_ : Z;
  key_uniqifier_ : Z
}.

Definition kSeedValue : Z := 4.

(** [expr.find(" like(") != std::string::npos] *)
Definition contains_like (expr : string) : bool :=
  bool_decide (String.index 0 " like(" expr <> None).

(** [ProjectorCacheKey::UpdateUniqifier]; [thread_id_hash] is the value of
    [std::hash<std::thread::id>()(std::this_thread::get_id())], and the
    function returns the new value of the member [uniqifier_]. *)
Definition UpdateUniqifier (thread_id_hash : Z) (uniqifier_ : Z) (expr : string) : Z :=
  if uniqifier_ =? 0 then
    (* caching of expressions with re2 patterns causes lock contention. So, use
       multiple instances to reduce contention. *)
    if contains_like expr then to_uint32 (to_size_t thread_id_hash mod 16)
    else uniqifier_
  else uniqifier_.

(** The variables the constructor's loop updates. *)
Record key_loop : Type := {
  loop_result : Z;
  loop_expressions_as_strings_ : list string;
  loop_uniqifier_ : Z
}.

Definition key_loop_body (thread_id_hash : Z) (st : key_loop) (expr : Expression)
    : key_loop :=
  let expr_as_string := Expression_ToString expr in
  {| loop_expressions_as_strings_ := loop_expressions_as_strings_ st ++ [expr_as_string];
     loop_result := hash_combine_string (loop_result st) expr_as_string;
     loop_uniqifier_ := UpdateUniqifier thread_id_hash (loop_uniqifier_ st) expr_as_string |}.

(** The constructor [ProjectorCacheKey::ProjectorCacheKey], run on the
    thread whose id hashes to [thread_id_hash]. *)
Definition ProjectorCacheKey_new (schema : Schema) (configuration : Configuration)
    (expression_vector : list Expression) (mode : Mode) (thread_id_hash : Z)
    : ProjectorCacheKey :=
  let st := fold_left (key_loop_body thread_id_hash) expression_vector
              {| loop_result := kSeedValue; loop_expressions_as_strings_ := [];
                 loop_uniqifier_ := 0 |} in
  let result := loop_result st in
  let result := hash_combine_size_t result (Mode_to_size_t mode) in
  let result := hash_combine_size_t result (Configuration_Hash configuration) in
  let result := hash_combine_string result (Schema_ToString schema) in
  let result := hash_combine_uint32 result (loop_uniqifier_ st) in
  {| key_schema_ := schema; key_configuration_ := configuration; key_mode_ := mode;
     key_expressions_as_strings_ := loop_expressions_as_strings_ st;
     key_hash_code_ := result; key_uniqifier_ := loop_uniqifier_ st |}.

Definition ProjectorCacheKey_Hash (k : ProjectorCacheKey) : Z := key_hash_code_ k.

(** [ProjectorCacheKey::operator==] *)
Definition ProjectorCacheKey_eq (this other : ProjectorCacheKey) : bool :=
  (* arrow schema does not overload equality operators. *)
  if negb (Schema_Equals (key_schema_ this) (key_schema_ other) true) then false
  else if negb (Configuration_eqb (key_configuration_ this) (key_configuration_ other))
  then false
  else if bool_decide (key_expressions_as_strings_ this <>
                       key_expressions_as_strings_ other) then false
  else if bool_decide (key_mode_ this <> key_mode_ other) then false
  else if bool_decide (key_uniqifier_ this <> key_uniqifier_ other) then false
  else true.

(** [ProjectorCacheKey::operator!=] *)
Definition ProjectorCacheKey_ne (this other : ProjectorCacheKey) : bool :=
  negb (ProjectorCacheKey_eq this other).

(** The members [operator==] compares, in the order of its tests. *)
Inductive Component : Type :=
| CmpSchema
| CmpConfiguration
| CmpExpressions
| CmpMode
| CmpUniqifier.

Definition comparison_order : list Component :=
  [CmpSchema; CmpConfiguration; CmpExpressions; CmpMode; CmpUniqifier].

(** Whether two keys agree on one member. *)
Definition component_equal (c : Component) (this other : ProjectorCacheKey) : bool :=
  match c with
  | CmpSchema => Schema_Equals (key_schema_ this) (key_schema_ other) true
  | CmpConfiguration =>
      Configuration_eqb (key_configuration_ this) (key_configuration_ other)
  | CmpExpressions =>
      bool_decide (key_expressions_as_strings_ this = key_expressions_as_strings_ other)
  | CmpMode => bool_decide (key_mode_ this = key_mode_ other)
  | CmpUniqifier => bool_decide (key_uniqifier_ this = key_uniqifier_ other)
  end.

(** [operator==] again, recording which members it has compared when it
    returns. *)
Definition ProjectorCacheKey_eq_compared (this other : ProjectorCacheKey)
    : list Component * bool :=
  if negb (Schema_Equals (key_schema_ this) (key_schema_ other) true)
  then ([CmpSchema], false)
  else if negb (Configuration_eqb (key_configuration_ this) (key_configuration_ other))
  then ([CmpSchema; CmpConfiguration], false)
  else if bool_decide (key_expressions_as_strings_ this <>
                       key_expressions_as_strings_ other)
  then ([CmpSchema; CmpConfiguration; CmpExpressions], false)
  else if bool_decide (key_mode_ this <> key_mode_ other)
  then ([CmpSchema; CmpConfiguration; CmpExpressions; CmpMode], false)
  else if bool_decide (key_uniqifier_ this <> key_uniqifier_ other)
  then ([CmpSchema; CmpConfiguration; CmpExpressions; CmpMode; CmpUniqifier], false)
  else ([CmpSchema; CmpConfiguration; CmpExpressions; CmpMode; CmpUniqifier], true).

(** The elements of [l] up to and including the first one satisfying [p]. *)
Fixpoint take_through {A : Type} (p : A -> bool) (l : list A) : list A :=
  match l with
  | [] => []
  | x :: l' => if p x then [x] else x :: take_through p l'
  end.

(** ** Projector *)

(** A projector object; [Projector_address] stands for the identity of
    the object created by [new Projector(...)]. *)
Record Projector : Type := {
  Projector_address : nat;
  Projector_llvm_generator_ : LLVMGenerator;
  Projector_schema_ : Schema;
  Projector_output_fields_ : list Field;
  Projector_configuration_ : Configuration
}.

(** [ValueCacheObject<std::shared_ptr<Projector>>] of gandiva/cache.h. *)
Record ValueCacheObject : Type := {
  vco_module : Projector;
  vco_cost : Z
}.

(** [Cache<ProjectorCacheKey, std::shared_ptr<Projector>>] of
    gandiva/cache.h: a lookup may reorder the store, so both operations
    return the store as it is afterwards; [GetModule] returns a null
    pointer when the key is absent. *)
Class ProjectorCache : Type := {
  Cache : Type;
  Cache_GetModule : ProjectorCacheKey -> Cache -> option Projector * Cache;
  Cache_PutModule : ProjectorCacheKey -> ValueCacheObject -> Cache -> Cache
}.

Context {projector_cache : ProjectorCache}.

(** The calls to collaborators, in the order they are made. *)
Inductive Event : Type :=
| CallKeyNew
| CallGetModule
| CallPutModule
| CallGeneratorMake
| CallValidate (expr : Expression)
| CallBuild
| CallNewProjector
| CallAllocateBuffer (size : Z)
| CallAllocateResizableBuffer (size : Z)
| CallExecute.

(** Everything mutable around a projector: the function-local static
    cache of [Projector::Make], the next fresh object address, the memory
    pool handed to the allocating [Evaluate], and the log of calls. *)
Record World : Type := {
  world_cache : Cache;
  world_next_address : nat;
  world_pool : MemoryPool;
  world_log : list Event
}.

(** The world with [calls] added to its log. *)
Definition logged (calls : list Event) (w : World) : World :=
  {| world_cache := world_cache w; world_next_address := world_next_address w;
     world_pool := world_pool w; world_log := world_log w ++ calls |}.

Definition log_call (e : Event) : prog World unit :=
  step (fun w => (Ok tt, logged [e] w)).

Definition with_cache (c : Cache) (w : World) : World :=
  {| world_cache := c; world_next_address := world_next_address w;
     world_pool := world_pool w; world_log := world_log w |}.

(** A non-null [arrow::MemoryPool*] designates the pool of the world. *)
Inductive MemoryPoolRef : Type := the_pool.

Definition with_pool (p : MemoryPool) (w : World) : World :=
  {| world_cache := world_cache w; world_next_address := world_next_address w;
     world_pool := p; world_log := world_log w |}.

(** [ProjectorCacheKey cache_key(schema, configuration, exprs, mode)] *)
Definition new_cache_key (schema : Schema) (configuration : Configuration)
    (exprs : list Expression) (mode : Mode) (thread_id_hash : Z)
    : prog World ProjectorCacheKey :=
  log_call CallKeyNew;;
  mret (ProjectorCacheKey_new schema configuration exprs mode thread_id_hash).

(** [cache.GetModule(cache_key)] *)
Definition cache_GetModule (cache_key : ProjectorCacheKey)
    : prog World (option Projector) :=
  log_call CallGetModule;;
  step (fun w => let '(found, c) := Cache_GetModule cache_key (world_cache w) in
                 (Ok found, with_cache c w)).

(** [cache.PutModule(cache_key, value_cache)] *)
Definition cache_PutModule (cache_key : ProjectorCacheKey) (value : ValueCacheObject)
    : prog World unit :=
  log_call CallPutModule;;
  step (fun w => (Ok tt, with_cache (Cache_PutModule cache_key value (world_cache w)) w)).

(** [new Projector(std::move(llvm_gen), schema, output_fields, configuration)] *)
Definition new_Projector (llvm_gen : LLVMGenerator) (schema : Schema)
    (output_fields : list Field) (configuration : Configuration)
    : prog World Projector :=
  log_call CallNewProjector;;
  step (fun w => (Ok {| Projector_address := world_next_address w;
                        Projector_llvm_generator_ := llvm_gen;
                        Projector_schema_ := schema;
                        Projector_output_fields_ := output_fields;
                        Projector_configuration_ := configuration |},
                  {| world_cache := world_cache w;
                     world_next_address := S (world_next_address w);
                     world_pool := world_pool w; world_log := world_log w |})).

(** [for (auto& expr : exprs) ARROW_RETURN_NOT_OK(expr_validator.Validate(expr));] *)
Fixpoint validate_each (llvm_gen : LLVMGenerator) (schema : Schema)
    (exprs : list Expression) : prog World unit :=
  match exprs with
  | [] => mret tt
  | expr :: rest =>
      log_call (CallValidate expr);;
      lift (ExprValidator_Validate llvm_gen schema expr);;
      validate_each llvm_gen schema rest
  end.

(** *** Projector::Make

    [thread_id_hash] is the hash of the calling thread's id and
    [elapsed] the build time the clock reports; on success the result is
    the projector stored in [*projector]. *)
Definition Make (schema : option Schema) (exprs : list Expression)
    (selection_vector_mode : Mode) (configuration : option Configuration)
    (thread_id_hash : Z) (elapsed : Z) : prog World Projector :=
  lift (ARROW_RETURN_IF (bool_decide (schema = None))
          (Status_Invalid [Str "Schema cannot be null"]));;
  lift (ARROW_RETURN_IF (bool_decide (length exprs = 0%nat))
          (Status_Invalid [Str "Expressions cannot be empty"]));;
  lift (ARROW_RETURN_IF (bool_decide (configuration = None))
          (Status_Invalid [Str "Configuration cannot be null"]));;
  schema_ ← lift (deref schema);
  configuration_ ← lift (deref configuration);
  (* see if equivalent projector was already built *)
  cache_key ← new_cache_key schema_ configuration_ exprs selection_vector_mode
                thread_id_hash;
  cached_projector ← cache_GetModule cache_key;
  match cached_projector with
  | Some p => mret p
  | None =>
      (* Build LLVM generator, and generate code for the specified expressions *)
      log_call CallGeneratorMake;;
      llvm_gen ← lift (LLVMGenerator_Make configuration_);
      (* Run the validation on the expressions. *)
      validate_each llvm_gen schema_ exprs;;
      log_call CallBuild;;
      llvm_gen ← lift (LLVMGenerator_Build llvm_gen exprs selection_vector_mode);
      (* save the output field types. Used for validation at Evaluate() time. *)
      let output_fields := map Expression_result exprs in
      (* Instantiate the projector with the completely built llvm generator *)
      projector ← new_Projector llvm_gen schema_ output_fields configuration_;
      let value_cache := {| vco_module := projector; vco_cost := elapsed |} in
      cache_PutModule cache_key value_cache;;
      mret projector
  end.

(** The two overloads that fill in the mode and the configuration. *)
Definition Make_with_configuration (schema : option Schema) (exprs : list Expression)
    (configuration : option Configuration) (thread_id_hash elapsed : Z)
    : prog World Projector :=
  Make schema exprs MODE_NONE configuration thread_id_hash elapsed.

Definition Make_default (schema : option Schema) (exprs : list Expression)
    (thread_id_hash elapsed : Z) : prog World Projector :=
  Make schema exprs MODE_NONE (Some DefaultConfiguration) thread_id_hash elapsed.

(** ** Buffer allocation *)

(** [arrow::AllocateBuffer(size, pool)] *)
Definition pool_AllocateBuffer (size : Z) : prog World Buffer :=
  log_call (CallAllocateBuffer size);;
  step (fun w => let '(r, p) := AllocateBuffer size (world_pool w) in
                 (r, with_pool p w)).

(** [arrow::AllocateResizableBuffer(size, pool)]: the buffer it returns
    is an [arrow::ResizableBuffer] by its type. *)
Definition pool_AllocateResizableBuffer (size : Z) : prog World Buffer :=
  log_call (CallAllocateResizableBuffer size);;
  b ← step (fun w => let '(r, p) := AllocateResizableBuffer size (world_pool w) in
                     (r, with_pool p w));
  mret {| Buffer_size := Buffer_size b; Buffer_capacity := Buffer_capacity b;
          Buffer_resizable := true |}.

(** *** Projector::AllocArrayData

    The [memset] of the data buffer of a BOOL vector changes bytes only,
    which the model does not hold. *)
Definition AllocArrayData (type : DataType) (num_records : Z) : prog World ArrayData :=
  (* The output vector always has a null bitmap. *)
  let size := BytesForBits num_records in
  bitmap_buffer ← pool_AllocateBuffer size;
  let buffers := [Some bitmap_buffer] in
  (* String/Binary vectors have an offsets array. *)
  let type_id := DataType_id type in
  buffers ← (if is_binary_like type_id then
               let offsets_len :=
                 BytesForBits (Int64.mul (Int64.add num_records 1) 32) in
               offsets_buffer ← pool_AllocateBuffer offsets_len;
               mret (buffers ++ [Some offsets_buffer])
             else mret buffers);
  (* The output vector always has a data array. *)
  data_len ← lift (if is_primitive type_id || bool_decide (type_id = DECIMAL) then
                     bit_width ← FixedWidthType_bit_width type;
                     mret (BytesForBits (Int64.mul num_records bit_width))
                   else if is_binary_like type_id then
                     (* we don't know the expected size for varlen output vectors. *)
                     mret 0
                   else
                     Status_Invalid [Str ("Unsupported output data type " +:+
                                          DataType_ToString type)]);
  data_buffer ← pool_AllocateResizableBuffer data_len;
  mret (ArrayData_Make type num_records (buffers ++ [Some data_buffer])).

(** ** Evaluation *)

(** *** Projector::ValidateEvaluateArgsCommon *)
Definition ValidateEvaluateArgsCommon (this : Projector) (batch : RecordBatch)
    : res unit :=
  ARROW_RETURN_IF
    (negb (Schema_Equals (RecordBatch_schema batch) (Projector_schema_ this)
             check_metadata_default))
    (Status_Invalid [Str "Schema in RecordBatch must match schema in Make()"]);;
  ARROW_RETURN_IF (RecordBatch_num_rows batch =? 0)
    (Status_Invalid [Str "RecordBatch must be non-empty."]);;
  mret tt.

(** [selection_vector == nullptr ? batch.num_rows() : selection_vector->GetNumSlots()] *)
Definition effective_num_rows (batch : RecordBatch)
    (selection_vector : option SelectionVector) : Z :=
  match selection_vector with
  | None => RecordBatch_num_rows batch
  | Some sv => SelectionVector_GetNumSlots sv
  end.

(** The loop of the first [Evaluate] over [output_data_vecs], from index
    [idx] on. *)
Fixpoint validate_output_data_vecs (this : Projector) (batch : RecordBatch)
    (selection_vector : option SelectionVector)
    (output_data_vecs : list (option ArrayData)) (idx : nat) : res unit :=
  match output_data_vecs with
  | [] => mret tt
  | array_data :: rest =>
      match array_data with
      | None =>
          field ← vector_at (Projector_output_fields_ this) idx;
          Status_Invalid [Str "array for output field "; Str (Field_name field);
                          Str "is null."]
      | Some data =>
          let num_rows := effective_num_rows batch selection_vector in
          field ← vector_at (Projector_output_fields_ this) idx;
          ValidateArrayDataCapacity data field num_rows;;
          validate_output_data_vecs this batch selection_vector rest (S idx)
      end
  end.

(** [llvm_generator_->Execute(batch, selection_vector, output_data_vecs)] *)
Definition generator_Execute (this : Projector) (batch : RecordBatch)
    (selection_vector : option SelectionVector)
    (output_data_vecs : list (option ArrayData))
    : prog World (list (option ArrayData)) :=
  log_call CallExecute;;
  lift (LLVMGenerator_Execute (Projector_llvm_generator_ this) batch selection_vector
          output_data_vecs).

(** *** Projector::Evaluate, into buffers of the caller

    The result is [output_data_vecs] as the execution leaves them. *)
Definition Evaluate (this : Projector) (batch : RecordBatch)
    (selection_vector : option SelectionVector)
    (output_data_vecs : list (option ArrayData))
    : prog World (list (option ArrayData)) :=
  lift (ValidateEvaluateArgsCommon this batch);;
  lift (ARROW_RETURN_IF
          (bool_decide (length output_data_vecs <> length (Projector_output_fields_ this)))
          (Status_Invalid [Str "number of buffers for output_data_vecs is ";
                           Num (Z.of_nat (length output_data_vecs));
                           Str ", expected ";
                           Num (Z.of_nat (length (Projector_output_fields_ this)))]));;
  lift (validate_output_data_vecs this batch selection_vector output_data_vecs 0);;
  generator_Execute this batch selection_vector output_data_vecs.

(** [arrow::Array], as [arrow::MakeArray] wraps an [ArrayData]. *)
Record Array : Type := MakeArray { Array_data : option ArrayData }.

(** The allocation loop of the second [Evaluate]. *)
Fixpoint alloc_output_data_vecs (fields : list Field) (num_rows : Z)
    : prog World (list (option ArrayData)) :=
  match fields with
  | [] => mret []
  | field :: rest =>
      output_data ← AllocArrayData (Field_type field) num_rows;
      output_data_vecs ← alloc_output_data_vecs rest num_rows;
      mret (Some output_data :: output_data_vecs)
  end.

(** *** Projector::Evaluate, allocating from a pool

    [output] is the vector [*output] as the caller passes it, or [None]
    for a null pointer; the result is its contents on return. *)
Definition Evaluate_alloc (this : Projector) (batch : RecordBatch)
    (selection_vector : option SelectionVector) (pool : option MemoryPoolRef)
    (output : option (list Array)) : prog World (list Array) :=
  lift (ValidateEvaluateArgsCommon this batch);;
  lift (ARROW_RETURN_IF (bool_decide (output = None))
          (Status_Invalid [Str "Output must be non-null."]));;
  lift (ARROW_RETURN_IF (bool_decide (pool = None))
          (Status_Invalid [Str "Memory pool must be non-null."]));;
  let num_rows := effective_num_rows batch selection_vector in
  (* Allocate the output data vecs. *)
  output_data_vecs ← alloc_output_data_vecs (Projector_output_fields_ this) num_rows;
  (* Execute the expression(s). *)
  output_data_vecs ← generator_Execute this batch selection_vector output_data_vecs;
  (* Create and return array arrays. *)
  mret (map MakeArray output_data_vecs).

(** The overloads without a selection vector. *)
Definition Evaluate_no_selection (this : Projector) (batch : RecordBatch)
    (output_data_vecs : list (option ArrayData))
    : prog World (list (option ArrayData)) :=
  Evaluate this batch None output_data_vecs.

Definition Evaluate_alloc_no_selection (this : Projector) (batch : RecordBatch)
    (pool : option MemoryPoolRef) (output : option (list Array))
    : prog World (list Array) :=
  Evaluate_alloc this batch None pool output.

(** [Projector::DumpIR] *)
Definition DumpIR (this : Projector) : string :=
  LLVMGenerator_DumpIR (Projector_llvm_generator_ this).

(** ** Printing a cache key *)

(** The loop of [ProjectorCacheKey::ToString] over
    [expressions_as_strings_]: [ss] is the text written to the stream so
    far, [first] the flag of the source. *)
Fixpoint ToString_loop (first : bool) (ss : string) (exprs : list string) : string :=
  match exprs with
  | [] => ss
  | expr :: rest =>
      let ss := if first then ss else ss +:+ ", " in
      ToString_loop false (ss +:+ expr) rest
  end.

(** [ProjectorCacheKey::ToString]; [PrettyPrint schema] is the text that
    [arrow::PrettyPrint] writes to the stream for the schema of the key
    with the options of the source (no indent, window 10, indent size 2,
    nulls as [null], no new lines); its status is only looked at by a
    debug check. *)
Definition ProjectorCacheKey_ToString (PrettyPrint : Schema -> string)
    (this : ProjectorCacheKey) : string :=
  let ss := PrettyPrint (key_schema_ this) in
  let ss := ss +:+ "Expressions: [" in
  let ss := ToString_loop true ss (key_expressions_as_strings_ this) in
  ss +:+ "]".

(** ** Comparing buffer sets *)

(** The buffer [p'] can stand for [p]: both null, or [p'] of the same
    class as [p] and of at least its capacity. *)
Definition buffer_covers (p p' : option Buffer) : Prop :=
  match p, p' with
  | Some b, Some b' =>
      Buffer_capacity b <= Buffer_capacity b' /\
      Buffer_resizable b = Buffer_resizable b'
  | None, None => True
  | _, _ => False
  end.

(** The output vector [p] at index [i] is one that the first [Evaluate]
    accepts for [n] rows: not null, and valid for the output field at
    that index. *)
Definition output_accepted (this : Projector) (n : Z) (i : nat)
    (p : option ArrayData) : Prop :=
  exists (data : ArrayData) (field : Field),
    p = Some data /\
    Projector_output_fields_ this !! i = Some field /\
    ValidateArrayDataCapacity data field n = Ok tt.

(** The calls a buffer allocation or an execution logs. *)
Definition is_evaluation_call (e : Event) : bool :=
  match e with
  | CallAllocateBuffer _ | CallAllocateResizableBuffer _ | CallExecute => true
  | _ => false
  end.

(** From [w] to [w'] only buffers were allocated and expressions
    executed: the cache and the object counter are as before, and the log
    has grown by allocation and execution calls. *)
Definition evaluation_frame (w w' : World) : Prop :=
  world_cache w' = world_cache w /\
  world_next_address w' = world_next_address w /\
  exists calls : list Event,
    world_log w' = world_log w ++ calls /\
    forallb is_evaluation_call calls = true.

End Projector.

(** ** A small concrete instance

    A five-type Arrow, a bump allocator, a backend that refuses some
    inputs, and an association-list cache: enough to run every function
    above on concrete inputs. *)

Module Sample.

Inductive SampleTypeId : Type :=
| Type_BOOL
| Type_INT32
| Type_STRING
| Type_DECIMAL
| Type_LIST.

#[export] Instance SampleTypeId_eq_dec : EqDecision SampleTypeId.
Proof. solve_decision. Defined.

Definition types : ArrowTypes :=
  {| TypeId := SampleTypeId;
     DECIMAL := Type_DECIMAL;
     BOOL := Type_BOOL;
     is_binary_like := fun t => match t with Type_STRING => true | _ => false end;
     is_primitive := fun t => match t with
                              | Type_BOOL | Type_INT32 => true
                              | _ => false
                              end |}.

Definition bool_type : @DataType types :=
  @Build_DataType types Type_BOOL "bool" (Some 1).
Definition int32_type : @DataType types :=
  @Build_DataType types Type_INT32 "int32" (Some 32).
Definition string_type : @DataType types :=
  @Build_DataType types Type_STRING "string" (None).
Definition list_type : @DataType types :=
  @Build_DataType types Type_LIST "list<item: int32>" (None).

(** A buffer of [size] bytes; the capacity is padded to a multiple of 64. *)
Definition fresh_buffer (size : Z) : Buffer :=
  {| Buffer_size := size; Buffer_capacity := 64 * ((size + 63) / 64);
     Buffer_resizable := false |}.

Definition arrow : Arrow :=
  {| Schema := list (string * SampleTypeId);
     Schema_Equals := fun s1 s2 _ => bool_decide (s1 = s2);
     check_metadata_default := false;
     Schema_ToString := fun s => String.concat ", " (map fst s);
     RecordBatch := list (string * SampleTypeId) * Z;
     RecordBatch_schema := fst;
     RecordBatch_num_rows := snd;
     MemoryPool := Z;
     AllocateBuffer := fun size used => (Ok (fresh_buffer size), used + size);
     AllocateResizableBuffer := fun size used => (Ok (fresh_buffer size), used + size);
     hash_combine_string := fun seed s => to_size_t (31 * seed + Z.of_nat (String.length s));
     hash_combine_size_t := fun seed v => to_size_t (31 * seed + v);
     hash_combine_uint32 := fun seed v => to_size_t (31 * seed + v) |}.

Inductive SampleMode : Type :=
| Mode_NONE
| Mode_UINT16.

#[export] Instance SampleMode_eq_dec : EqDecision SampleMode.
Proof. solve_decision. Defined.

(** Configurations are optimisation levels, the generator exists for
    levels up to 3; an expression with an empty text is invalid, and one
    named ["div0"] does not compile. *)
Definition gandiva : @Gandiva types arrow :=
  {| Configuration := nat;
     Configuration_eqb := Nat.eqb;
     Configuration_Hash := Z.of_nat;
     DefaultConfiguration := 2%nat;
     Mode := SampleMode;
     MODE_NONE := Mode_NONE;
     Mode_to_size_t := fun m => match m with Mode_NONE => 0 | Mode_UINT16 => 1 end;
     SelectionVector := list Z;
     SelectionVector_GetNumSlots := fun sv => Z.of_nat (length sv);
     Expression := string * @Field types;
     Expression_ToString := fst;
     Expression_result := snd;
     LLVMGenerator := nat;
     LLVMGenerator_Make := fun level =>
       if (3 <? level)%nat then Raise (OtherCode 1) [Str "no such optimisation level"]
       else Ok level;
     LLVMGenerator_Build := fun g exprs _ =>
       if existsb (fun e => String.eqb (fst e) "div0") exprs
       then Raise (OtherCode 3) [Str "could not compile"]
       else Ok g;
     LLVMGenerator_Execute := fun _ _ _ out => Ok out;
     LLVMGenerator_DumpIR := fun _ => "";
     ExprValidator_Validate := fun _ _ e =>
       if String.eqb (fst e) "" then Raise (OtherCode 2) [Str "empty expression"]
       else Ok tt |}.

(** The cache as a list of entries, the most recent first. *)
Definition cache : @ProjectorCache types arrow gandiva :=
  {| Cache := list (ProjectorCacheKey * ValueCacheObject);
     Cache_GetModule := fun key c =>
       (match find (fun kv => ProjectorCacheKey_eq (fst kv) key) c with
        | Some kv => Some (vco_module (snd kv))
        | None => None
        end, c);
     Cache_PutModule := fun key value c => (key, value) :: c |}.

Definition empty_world : @World types arrow gandiva cache :=
  @Build_World types arrow gandiva cache [] 0%nat 0 [].

Definition a_schema : @Schema arrow := [("a", Type_INT32); ("s", Type_STRING)].
Definition level2 : @Configuration types arrow gandiva := 2%nat.
Definition generator2 : @LLVMGenerator types arrow gandiva := 2%nat.

Definition int32_field : @Field types := @Build_Field types "r" int32_type.
Definition string_field : @Field types := @Build_Field types "t" string_type.

Definition add_expr : @Expression types arrow gandiva := ("int32 add(a, a)", int32_field).
Definition like_expr : @Expression types arrow gandiva :=
  ("bool like(s, (const string) 'x%')", int32_field).
Definition upper_expr : @Expression types arrow gandiva := ("string upper(s)", string_field).
Definition empty_expr : @Expression types arrow gandiva := ("", int32_field).
Definition div0_expr : @Expression types arrow gandiva := ("div0", int32_field).

(** The bitmap and the offsets of a ten-row string column, and a data
    buffer that is large but not resizable. *)
Definition string_bitmap : Buffer := fresh_buffer 2.
Definition string_offsets : Buffer := fresh_buffer 44.
Definition fixed_data : Buffer := fresh_buffer 4096.

Definition a_projector : @Projector types arrow gandiva :=
  @Build_Projector types arrow gandiva 0%nat generator2 a_schema [int32_field] level2.

Definition empty_batch : @RecordBatch arrow := (a_schema, 0).

(** A batch of ten rows, vectors for its outputs, and a second expression
    that prints like [add_expr]. *)
Definition ten_rows : @RecordBatch arrow := (a_schema, 10).

Definition tight_buffer (size : Z) : Buffer :=
  {| Buffer_size := size; Buffer_capacity := size; Buffer_resizable := false |}.

Definition int32_vector : @ArrayData types :=
  @ArrayData_Make types int32_type 10 [Some (tight_buffer 2); Some (tight_buffer 40)].
Definition wide_int32_vector : @ArrayData types :=
  @ArrayData_Make types int32_type 10
    [Some (fresh_buffer 2); Some (fresh_buffer 40); None].
Definition short_int32_vector : @ArrayData types :=
  @ArrayData_Make types int32_type 10 [Some (tight_buffer 2); Some (tight_buffer 39)].
Definition one_buffer_vector : @ArrayData types :=
  @ArrayData_Make types int32_type 10 [Some (tight_buffer 2)].
Definition two_buffer_string_vector : @ArrayData types :=
  @ArrayData_Make types string_type 10 [Some string_bitmap; Some string_offsets].
Definition list_vector : @ArrayData types :=
  @ArrayData_Make types list_type 10 [Some (tight_buffer 2); Some (tight_buffer 40)].

Definition list_field : @Field types := @Build_Field types "l" list_type.

(** A build that stops at the validation of its second expression. *)
Definition failing_build : res (@Projector types arrow gandiva) * @World types arrow gandiva cache :=
  @Make types arrow gandiva cache (Some a_schema) [add_expr; empty_expr; upper_expr]
    Mode_NONE (Some level2) 111 5 empty_world.

(** The pool after the allocation of a bitmap of two bytes. *)
Definition two_bytes_used : @MemoryPool arrow := 2.

Definition add_expr_twin : @Expression types arrow gandiva :=
  ("int32 add(a, a)", string_field).

Definition two_output_projector : @Projector types arrow gandiva :=
  @Build_Projector types arrow gandiva 1%nat generator2 a_schema
    [int32_field; string_field] level2.

(** The projector that the first build in [empty_world] creates for
    [add_expr] and [upper_expr]. *)
Definition first_projector : @Projector types arrow gandiva :=
  @Build_Projector types arrow gandiva 0%nat generator2 a_schema
    [int32_field; string_field] level2.

(** A second pool, of 45 bytes: a request that would exceed them is
    refused with an out-of-memory status and leaves the pool as it was.
    The rest is as in [arrow], [gandiva] and [cache]. *)
Definition small_allocate (size used : Z) : res Buffer * Z :=
  if 45 <? used + size then (Raise (OtherCode 4) [Str "out of memory"], used)
  else (Ok (fresh_buffer size), used + size).

Definition small_arrow : Arrow :=
  {| Schema := list (string * SampleTypeId);
     Schema_Equals := fun s1 s2 _ => bool_decide (s1 = s2);
     check_metadata_default := false;
     Schema_ToString := fun s => String.concat ", " (map fst s);
     RecordBatch := list (string * SampleTypeId) * Z;
     RecordBatch_schema := fst;
     RecordBatch_num_rows := snd;
     MemoryPool := Z;
     AllocateBuffer := small_allocate;
     AllocateResizableBuffer := small_allocate;
     hash_combine_string := fun seed s => to_size_t (31 * seed + Z.of_nat (String.length s));
     hash_combine_size_t := fun seed v => to_size_t (31 * seed + v);
     hash_combine_uint32 := fun seed v => to_size_t (31 * seed + v) |}.

Definition small_gandiva : @Gandiva types small_arrow :=
  {| Configuration := nat;
     Configuration_eqb := Nat.eqb;
     Configuration_Hash := Z.of_nat;
     DefaultConfiguration := 2%nat;
     Mode := SampleMode;
     MODE_NONE := Mode_NONE;
     Mode_to_size_t := fun m => match m with Mode_NONE => 0 | Mode_UINT16 => 1 end;
     SelectionVector := list Z;
     SelectionVector_GetNumSlots := fun sv => Z.of_nat (length sv);
     Expression := string * @Field types;
     Expression_ToString := fst;
     Expression_result := snd;
     LLVMGenerator := nat;
     LLVMGenerator_Make := fun level =>
       if (3 <? level)%nat then Raise (OtherCode 1) [Str "no such optimisation level"]
       else Ok level;
     LLVMGenerator_Build := fun g exprs _ =>
       if existsb (fun e => String.eqb (fst e) "div0") exprs
       then Raise (OtherCode 3) [Str "could not compile"]
       else Ok g;
     LLVMGenerator_Execute := fun _ _ _ out => Ok out;
     LLVMGenerator_DumpIR := fun _ => EmptyString;
     ExprValidator_Validate := fun _ _ e =>
       if String.eqb (fst e) EmptyString then Raise (OtherCode 2) [Str "empty expression"]
       else Ok tt |}.

Definition small_cache : @ProjectorCache types small_arrow small_gandiva :=
  {| Cache := list (ProjectorCacheKey * ValueCacheObject);
     Cache_GetModule := fun key c =>
       (match find (fun kv => ProjectorCacheKey_eq (fst kv) key) c with
        | Some kv => Some (vco_module (snd kv))
        | None => None
        end, c);
     Cache_PutModule := fun key value c => (key, value) :: c |}.

(** The world of the small pool, with [used] bytes of it taken. *)
Definition small_world (used : Z) : @World types small_arrow small_gandiva small_cache :=
  @Build_World types small_arrow small_gandiva small_cache [] 0%nat used [].

End Sample.

(** * Properties *)

(** ** Arithmetic *)


Lemma is_ceil_div8_unique (bits m m' : Z) :
  is_ceil_div8 bits m -> is_ceil_div8 bits m' -> m = m'.
Proof. unfold is_ceil_div8. lia. Qed.


Lemma uniqifier_value_range (h : Z) :
  to_uint32 (to_size_t h mod 16) = to_size_t h mod 16 /\ 0 <= to_size_t h mod 16 <= 15.
Proof.
  unfold to_uint32.
  pose proof (Z.mod_pos_bound (to_size_t h) 16 ltac:(lia)) as Hb.
  split; [apply Z.mod_small; lia | lia].
Qed.

Section KeyProperties.
Context {arrow_types : ArrowTypes} {arrow_lib : Arrow} {gandiva_lib : Gandiva}.

(** *** The constructor's loop *)

Lemma key_loop_strings (tid : Z) (exprs : list Expression) (st : key_loop) :
  loop_expressions_as_strings_ (fold_left (key_loop_body tid) exprs st) =
  loop_expressions_as_strings_ st ++ map Expression_ToString exprs.
Proof.
  revert st. induction exprs as [|e exprs IH]; intros st; simpl.
  - by rewrite app_nil_r.
  - rewrite IH. simpl. by rewrite <- app_assoc.
Qed.

Lemma key_loop_result (tid : Z) (exprs : list Expression) (st : key_loop) :
  loop_result (fold_left (key_loop_body tid) exprs st) =
  fold_left hash_combine_string (map Expression_ToString exprs) (loop_result st).
Proof.
  revert st. induction exprs as [|e exprs IH]; intros st; simpl; [done|].
  by rewrite IH.
Qed.

Lemma UpdateUniqifier_nonzero (tid u : Z) (expr : string) :
  u <> 0 -> UpdateUniqifier tid u expr = u.
Proof.
  intros Hu. unfold UpdateUniqifier.
  destruct (Z.eqb_spec u 0); [done | reflexivity].
Qed.

Lemma key_loop_uniqifier (tid : Z) (exprs : list Expression) (st : key_loop) :
  loop_uniqifier_ (fold_left (key_loop_body tid) exprs st) =
  if loop_uniqifier_ st =? 0 then
    if existsb (fun e => contains_like (Expression_ToString e)) exprs
    then to_size_t tid mod 16 else 0
  else loop_uniqifier_ st.
Proof.
  revert st. induction exprs as [|e exprs IH]; intros st; simpl.
  - destruct (Z.eqb_spec (loop_uniqifier_ st) 0); congruence.
  - rewrite IH. simpl. unfold UpdateUniqifier.
    destruct (uniqifier_value_range tid) as [Hcast Hrange]. rewrite Hcast.
    destruct (Z.eqb_spec (loop_uniqifier_ st) 0) as [Hz|Hnz].
    + destruct (contains_like (Expression_ToString e)); simpl.
      * destruct (Z.eqb_spec (to_size_t tid mod 16) 0) as [Hv|Hv]; [|done].
        rewrite Hv. by destruct (existsb _ exprs).
      * by rewrite Hz.
    + destruct (Z.eqb_spec (loop_uniqifier_ st) 0); [done | reflexivity].
Qed.

Lemma key_new_strings schema configuration exprs mode tid :
  key_expressions_as_strings_ (ProjectorCacheKey_new schema configuration exprs mode tid) =
  map Expression_ToString exprs.
Proof. unfold ProjectorCacheKey_new. simpl. by rewrite key_loop_strings. Qed.

Lemma key_new_uniqifier schema configuration exprs mode tid :
  key_uniqifier_ (ProjectorCacheKey_new schema configuration exprs mode tid) =
  if existsb (fun e => contains_like (Expression_ToString e)) exprs
  then to_size_t tid mod 16 else 0.
Proof. unfold ProjectorCacheKey_new. simpl. by rewrite key_loop_uniqifier. Qed.

Lemma key_new_hash schema configuration exprs mode tid :
  ProjectorCacheKey_Hash (ProjectorCacheKey_new schema configuration exprs mode tid) =
  hash_combine_uint32
    (hash_combine_string
       (hash_combine_size_t
          (hash_combine_size_t
             (fold_left hash_combine_string (map Expression_ToString exprs) kSeedValue)
             (Mode_to_size_t mode))
          (Configuration_Hash configuration))
       (Schema_ToString schema))
    (key_uniqifier_ (ProjectorCacheKey_new schema configuration exprs mode tid)).
Proof.
  unfold ProjectorCacheKey_Hash, ProjectorCacheKey_new. simpl.
  by rewrite key_loop_result.
Qed.

(** *** operator== *)

Lemma ProjectorCacheKey_eq_true (k1 k2 : ProjectorCacheKey) :
  ProjectorCacheKey_eq k1 k2 = true <->
  Schema_Equals (key_schema_ k1) (key_schema_ k2) true = true /\
  Configuration_eqb (key_configuration_ k1) (key_configuration_ k2) = true /\
  key_expressions_as_strings_ k1 = key_expressions_as_strings_ k2 /\
  key_mode_ k1 = key_mode_ k2 /\
  key_uniqifier_ k1 = key_uniqifier_ k2.
Proof.
  unfold ProjectorCacheKey_eq.
  destruct (Schema_Equals _ _ true); simpl; [|intuition congruence].
  destruct (Configuration_eqb _ _); simpl; [|intuition congruence].
  repeat case_bool_decide; intuition congruence.
Qed.

Lemma ProjectorCacheKey_eq_compared_snd (k1 k2 : ProjectorCacheKey) :
  snd (ProjectorCacheKey_eq_compared k1 k2) = ProjectorCacheKey_eq k1 k2.
Proof.
  unfold ProjectorCacheKey_eq_compared, ProjectorCacheKey_eq.
  repeat match goal with |- context [if ?b then _ else _] => destruct b end;
    reflexivity.
Qed.

Lemma ProjectorCacheKey_eq_compared_fst (k1 k2 : ProjectorCacheKey) :
  fst (ProjectorCacheKey_eq_compared k1 k2) =
  take_through (fun c => negb (component_equal c k1 k2)) comparison_order.
Proof.
  unfold ProjectorCacheKey_eq_compared, comparison_order. simpl.
  destruct (Schema_Equals _ _ true); simpl; [|done].
  destruct (Configuration_eqb _ _); simpl; [|done].
  repeat case_bool_decide; simpl; try done; try congruence.
Qed.

Lemma ProjectorCacheKey_eq_is_equivalence :
  Equivalence (fun s1 s2 : Schema => Schema_Equals s1 s2 true = true) ->
  Equivalence (fun c1 c2 : Configuration => Configuration_eqb c1 c2 = true) ->
  Equivalence (fun k1 k2 : ProjectorCacheKey => ProjectorCacheKey_eq k1 k2 = true).
Proof.
  intros [Srefl Ssym Strans] [Crefl Csym Ctrans]. split.
  - intros k. apply ProjectorCacheKey_eq_true.
    repeat split; [apply Srefl | apply Crefl].
  - intros k1 k2 (Hs & Hc & He & Hm & Hu)%ProjectorCacheKey_eq_true.
    apply ProjectorCacheKey_eq_true.
    repeat split; [by apply Ssym | by apply Csym | done..].
  - intros k1 k2 k3 (Hs & Hc & He & Hm & Hu)%ProjectorCacheKey_eq_true
      (Hs' & Hc' & He' & Hm' & Hu')%ProjectorCacheKey_eq_true.
    apply ProjectorCacheKey_eq_true.
    repeat split; [by eapply Strans | by eapply Ctrans | congruence..].
Qed.

(** *** The claims about the cache key *)

(** C2: [operator==] on cache keys is an equivalence relation (given that
    schema equality with metadata and configuration equality are); two
    keys compare equal exactly when they agree on the schema, the
    configuration, the list of expression strings, the mode and the
    uniqifier; and the members are compared in that order, the
    comparison stopping at the first one that differs. *)
Theorem ProjectorCacheKey_eq_equivalence :
  Equivalence (fun s1 s2 : Schema => Schema_Equals s1 s2 true = true) ->
  Equivalence (fun c1 c2 : Configuration => Configuration_eqb c1 c2 = true) ->
  Equivalence (fun k1 k2 : ProjectorCacheKey => ProjectorCacheKey_eq k1 k2 = true) /\
  (forall k1 k2 : ProjectorCacheKey,
      ProjectorCacheKey_eq k1 k2 = true <->
      Schema_Equals (key_schema_ k1) (key_schema_ k2) true = true /\
      Configuration_eqb (key_configuration_ k1) (key_configuration_ k2) = true /\
      key_expressions_as_strings_ k1 = key_expressions_as_strings_ k2 /\
      key_mode_ k1 = key_mode_ k2 /\
      key_uniqifier_ k1 = key_uniqifier_ k2) /\
  (forall k1 k2 : ProjectorCacheKey,
      ProjectorCacheKey_eq_compared k1 k2 =
      (take_through (fun c => negb (component_equal c k1 k2)) comparison_order,
       ProjectorCacheKey_eq k1 k2)).
Proof.
  intros Hschema Hconfig.
  split; [by apply ProjectorCacheKey_eq_is_equivalence|split].
  - apply ProjectorCacheKey_eq_true.
  - intros k1 k2.
    rewrite <- ProjectorCacheKey_eq_compared_fst, <- ProjectorCacheKey_eq_compared_snd.
    by destruct (ProjectorCacheKey_eq_compared k1 k2).
Qed.

(** C3: the hash of a constructed key is the seed 4 folded with each
    expression string in order, then the mode, the hash of the
    configuration, the printed schema and the uniqifier; hence two
    constructed keys that compare equal have the same hash, provided
    equal schemas print alike and equal configurations hash alike. *)
Theorem ProjectorCacheKey_Hash_consistent :
  (forall s1 s2 : Schema,
      Schema_Equals s1 s2 true = true -> Schema_ToString s1 = Schema_ToString s2) ->
  (forall c1 c2 : Configuration,
      Configuration_eqb c1 c2 = true -> Configuration_Hash c1 = Configuration_Hash c2) ->
  (forall schema configuration exprs mode tid,
      ProjectorCacheKey_Hash
        (ProjectorCacheKey_new schema configuration exprs mode tid) =
      hash_combine_uint32
        (hash_combine_string
           (hash_combine_size_t
              (hash_combine_size_t
                 (fold_left hash_combine_string (map Expression_ToString exprs) 4)
                 (Mode_to_size_t mode))
              (Configuration_Hash configuration))
           (Schema_ToString schema))
        (key_uniqifier_ (ProjectorCacheKey_new schema configuration exprs mode tid))) /\
  (forall schema1 configuration1 exprs1 mode1 tid1
          schema2 configuration2 exprs2 mode2 tid2,
      ProjectorCacheKey_eq
        (ProjectorCacheKey_new schema1 configuration1 exprs1 mode1 tid1)
        (ProjectorCacheKey_new schema2 configuration2 exprs2 mode2 tid2) = true ->
      ProjectorCacheKey_Hash
        (ProjectorCacheKey_new schema1 configuration1 exprs1 mode1 tid1) =
      ProjectorCacheKey_Hash
        (ProjectorCacheKey_new schema2 configuration2 exprs2 mode2 tid2)).
Proof.
  intros Hschema Hconfig. split; [intros; apply key_new_hash|].
  intros s1 c1 e1 m1 t1 s2 c2 e2 m2 t2
    (Hs & Hc & He & Hm & Hu)%ProjectorCacheKey_eq_true.
  rewrite !key_new_hash. rewrite Hu.
  rewrite !key_new_strings in He. simpl in Hs, Hc, Hm.
  by rewrite He, Hm, (Hschema _ _ Hs), (Hconfig _ _ Hc).
Qed.

(** C9: the uniqifier of a constructed key is 0 when no expression string
    contains the text [" like("]; when some expression string contains
    it, the uniqifier is the hash of the calling thread's id modulo 16;
    it always lies between 0 and 15; and [UpdateUniqifier] changes the
    member only while it is 0, and then to that value. *)
Theorem uniqifier_assignment schema configuration exprs mode tid :
  (Forall (fun e => contains_like (Expression_ToString e) = false) exprs ->
   key_uniqifier_ (ProjectorCacheKey_new schema configuration exprs mode tid) = 0) /\
  (Exists (fun e => contains_like (Expression_ToString e) = true) exprs ->
   key_uniqifier_ (ProjectorCacheKey_new schema configuration exprs mode tid) =
   to_size_t tid mod 16) /\
  0 <= key_uniqifier_ (ProjectorCacheKey_new schema configuration exprs mode tid) <= 15 /\
  (forall (u : Z) (expr : string),
      UpdateUniqifier tid u expr <> u ->
      u = 0 /\ contains_like expr = true /\
      UpdateUniqifier tid u expr = to_size_t tid mod 16).
Proof.
  rewrite key_new_uniqifier.
  destruct (uniqifier_value_range tid) as [Hcast Hrange].
  repeat split.
  - intros Hnone.
    destruct (existsb _ exprs) eqn:Hex; [|done].
    apply existsb_exists in Hex as (e & Hin & He).
    rewrite Forall_forall in Hnone. specialize (Hnone e).
    rewrite list_elem_of_In in Hnone. specialize (Hnone Hin). congruence.
  - intros Hsome.
    destruct (existsb _ exprs) eqn:Hex; [done|].
    apply Exists_exists in Hsome as (e & Hin & He).
    rewrite list_elem_of_In in Hin.
    assert (existsb (fun e => contains_like (Expression_ToString e)) exprs = true)
      by (apply existsb_exists; eauto).
    congruence.
  - destruct (existsb _ exprs); lia.
  - destruct (existsb _ exprs); lia.
  - unfold UpdateUniqifier in *. destruct (Z.eqb_spec u 0); [done|congruence].
  - unfold UpdateUniqifier in *. destruct (Z.eqb_spec u 0); [|congruence].
    destruct (contains_like expr); [done|congruence].
  - unfold UpdateUniqifier in *. destruct (Z.eqb_spec u 0); [|congruence].
    destruct (contains_like expr); [done|congruence].
Qed.

End KeyProperties.

(** Unfolding of the [prog] combinators. *)
Ltac run_prog :=
  repeat (progress (unfold mbind, mret, prog_mbind, prog_ret, prog_bind, step, lift;
                    simpl)).

(** Unfolding of the [res] combinators. *)
Ltac run_res :=
  repeat (progress (unfold mbind, mret, res_mbind, res_ret, res_bind,
                      ARROW_RETURN_IF, Status_Invalid, vector_at, deref; simpl)).

Lemma at_least_two_buffers {A : Type} (a b : A) (rest : list A) :
  (Z.of_nat (length (a :: b :: rest)) <? 2) = false.
Proof. apply Z.ltb_ge. simpl length. lia. Qed.

Section ShapeProperties.
Context {arrow_types : ArrowTypes} {arrow_lib : Arrow} {gandiva_lib : Gandiva}
        {projector_cache : ProjectorCache}.

(** *** The validator, case by case *)

Lemma Validate_varlen (type : DataType) (name : string) (n : Z)
    (b0 b1 : Buffer) (p2 : option Buffer) (rest : list (option Buffer)) (length : Z) :
  is_binary_like (DataType_id type) = true ->
  ValidateArrayDataCapacity
    (ArrayData_Make type length (Some b0 :: Some b1 :: p2 :: rest))
    {| Field_name := name; Field_type := type |} n =
  if Buffer_capacity b0 <? BytesForBits n then
    Status_Invalid [Str "Bitmap buffer too small for "; Str name;
                    Str " expected minimum "; Num (BytesForBits n);
                    Str " actual size "; Num (Buffer_capacity b0)]
  else if Buffer_capacity b1 <? BytesForBits (Int64.mul (Int64.add n 1) 32) then
    Status_Invalid [Str "offsets buffer too small for "; Str name;
                    Str " minimum required ";
                    Num (BytesForBits (Int64.mul (Int64.add n 1) 32));
                    Str " actual "; Num (Buffer_capacity b1)]
  else if bool_decide (as_ResizableBuffer p2 = None) then
    Status_Invalid [Str "data buffer for varlen output vectors must be resizable"]
  else Ok tt.
Proof.
  intros Hbin. unfold ValidateArrayDataCapacity.
  cbn [ArrayData_buffers ArrayData_Make Field_type Field_name].
  rewrite at_least_two_buffers, Hbin. run_res.
  destruct (Buffer_capacity b0 <? BytesForBits n); [done|].
  destruct (Buffer_capacity b1 <? _); [done|].
  by destruct (bool_decide _).
Qed.

Lemma Validate_fixed (type : DataType) (name : string) (n w : Z)
    (b0 b1 : Buffer) (rest : list (option Buffer)) (length : Z) :
  is_binary_like (DataType_id type) = false ->
  is_primitive (DataType_id type) || bool_decide (DataType_id type = DECIMAL) = true ->
  DataType_bit_width type = Some w ->
  ValidateArrayDataCapacity
    (ArrayData_Make type length (Some b0 :: Some b1 :: rest))
    {| Field_name := name; Field_type := type |} n =
  if Buffer_capacity b0 <? BytesForBits n then
    Status_Invalid [Str "Bitmap buffer too small for "; Str name;
                    Str " expected minimum "; Num (BytesForBits n);
                    Str " actual size "; Num (Buffer_capacity b0)]
  else if Buffer_capacity b1 <? BytesForBits (Int64.mul n w) then
    Status_Invalid [Str "Data buffer too small for "; Str name]
  else Ok tt.
Proof.
  intros Hbin Hfix Hw.
  unfold ValidateArrayDataCapacity, FixedWidthType_bit_width.
  cbn [ArrayData_buffers ArrayData_Make Field_type Field_name].
  rewrite at_least_two_buffers, Hbin, Hfix, Hw. run_res.
  destruct (Buffer_capacity b0 <? BytesForBits n); [done|].
  by destruct (Buffer_capacity b1 <? _).
Qed.

Lemma Validate_varlen_two_buffers (type : DataType) (name : string) (n : Z)
    (b0 b1 : Buffer) (length : Z) :
  is_binary_like (DataType_id type) = true ->
  ValidateArrayDataCapacity
    (ArrayData_Make type length [Some b0; Some b1])
    {| Field_name := name; Field_type := type |} n =
  if Buffer_capacity b0 <? BytesForBits n then
    Status_Invalid [Str "Bitmap buffer too small for "; Str name;
                    Str " expected minimum "; Num (BytesForBits n);
                    Str " actual size "; Num (Buffer_capacity b0)]
  else if Buffer_capacity b1 <? BytesForBits (Int64.mul (Int64.add n 1) 32) then
    Status_Invalid [Str "offsets buffer too small for "; Str name;
                    Str " minimum required ";
                    Num (BytesForBits (Int64.mul (Int64.add n 1) 32));
                    Str " actual "; Num (Buffer_capacity b1)]
  else Faulted (OutOfBounds 2).
Proof.
  intros Hbin. unfold ValidateArrayDataCapacity.
  cbn [ArrayData_buffers ArrayData_Make Field_type Field_name].
  rewrite at_least_two_buffers, Hbin. run_res.
  destruct (Buffer_capacity b0 <? BytesForBits n); [done|].
  by destruct (Buffer_capacity b1 <? _).
Qed.

(** *** The planner, case by case *)



Lemma not_resizable_decide (p : option Buffer) :
  bool_decide (as_ResizableBuffer p = None) = false <-> as_ResizableBuffer p <> None.
Proof. by rewrite bool_decide_eq_false. Qed.

#[local] Arguments logged : simpl never.

(** The buffer [pool_AllocateResizableBuffer] hands over. *)
Lemma AllocateResizable_run (size : Z) (w : World) :
  pool_AllocateResizableBuffer size w =
  match AllocateResizableBuffer size (world_pool w) with
  | (Ok d, p) =>
      (Ok {| Buffer_size := Buffer_size d; Buffer_capacity := Buffer_capacity d;
             Buffer_resizable := true |},
       with_pool p (logged [CallAllocateResizableBuffer size] w))
  | (Raise c m, p) =>
      (Raise c m, with_pool p (logged [CallAllocateResizableBuffer size] w))
  | (Faulted f, p) =>
      (Faulted f, with_pool p (logged [CallAllocateResizableBuffer size] w))
  end.
Proof.
  unfold pool_AllocateResizableBuffer, log_call. run_prog.
  by destruct (AllocateResizableBuffer _ _) as [[d| |] p].
Qed.

Lemma AllocateBuffer_run (size : Z) (w : World) :
  pool_AllocateBuffer size w =
  (fst (AllocateBuffer size (world_pool w)),
   with_pool (snd (AllocateBuffer size (world_pool w)))
     (logged [CallAllocateBuffer size] w)).
Proof.
  unfold pool_AllocateBuffer, log_call. run_prog.
  by destruct (AllocateBuffer _ _) as [r p].
Qed.

(** The width test and the size of the data buffer, as the planner
    computes them. *)
Lemma planned_data_len (type : DataType) (n : Z) :
  (if is_primitive (DataType_id type) || bool_decide (DataType_id type = DECIMAL) then
     bit_width ← FixedWidthType_bit_width type;
     mret (BytesForBits (Int64.mul n bit_width))
   else if is_binary_like (DataType_id type) then mret 0
   else Status_Invalid [Str ("Unsupported output data type " +:+
                             DataType_ToString type)]) =
  if is_primitive (DataType_id type) || bool_decide (DataType_id type = DECIMAL) then
    match DataType_bit_width type with
    | Some bw => Ok (BytesForBits (Int64.mul n bw))
    | None => Faulted BadCast
    end
  else if is_binary_like (DataType_id type) then Ok 0
  else Raise Invalid [Str ("Unsupported output data type " +:+ DataType_ToString type)].
Proof.
  unfold FixedWidthType_bit_width. destruct (_ || _); [|done].
  by destruct (DataType_bit_width type).
Qed.

(** *** The claims about buffer shapes *)






(** C8: for a variable-length output field, validation of buffers the
    caller supplies fails with an invalid-argument status whenever the
    data buffer (the third buffer) is null or not resizable, whatever its
    capacity; and the verdict never depends on the size or the capacity
    of the data buffer. *)
Theorem varlen_data_buffer_must_be_resizable (type : DataType) (name : string)
    (n len : Z) (b0 b1 : Buffer) (rest : list (option Buffer)) :
  is_binary_like (DataType_id type) = true ->
  (forall p2 : option Buffer,
      as_ResizableBuffer p2 = None ->
      is_invalid
        (ValidateArrayDataCapacity
           (ArrayData_Make type len (Some b0 :: Some b1 :: p2 :: rest))
           {| Field_name := name; Field_type := type |} n)) /\
  (forall d : Buffer,
      Buffer_resizable d = false ->
      is_invalid
        (ValidateArrayDataCapacity
           (ArrayData_Make type len (Some b0 :: Some b1 :: Some d :: rest))
           {| Field_name := name; Field_type := type |} n)) /\
  (forall d d' : Buffer,
      Buffer_resizable d = Buffer_resizable d' ->
      ValidateArrayDataCapacity
        (ArrayData_Make type len (Some b0 :: Some b1 :: Some d :: rest))
        {| Field_name := name; Field_type := type |} n =
      ValidateArrayDataCapacity
        (ArrayData_Make type len (Some b0 :: Some b1 :: Some d' :: rest))
        {| Field_name := name; Field_type := type |} n).
Proof.
  intros Hbin.
  assert (Hnull : forall p2 : option Buffer,
             as_ResizableBuffer p2 = None ->
             is_invalid
               (ValidateArrayDataCapacity
                  (ArrayData_Make type len (Some b0 :: Some b1 :: p2 :: rest))
                  {| Field_name := name; Field_type := type |} n)).
  { intros p2 Hp2. rewrite Validate_varlen by done. rewrite Hp2.
    unfold is_invalid, Status_Invalid.
    destruct (_ <? _); [eauto|]. destruct (_ <? _); [eauto|].
    rewrite bool_decide_eq_true_2 by done. eauto. }
  split; [exact Hnull|]. split.
  - intros d Hd. apply Hnull. simpl. by rewrite Hd.
  - intros d d' Hdd'. rewrite !Validate_varlen by done. simpl. rewrite Hdd'.
    by destruct (Buffer_resizable d').
Qed.

(** C10: for a variable-length output field and a set of exactly two
    buffers, the test for at least two buffers passes, yet index 2 is
    past the end of the vector; so validation never succeeds, and once
    the bitmap and the offsets are large enough it reads [buffers[2]]
    out of bounds. *)
Theorem two_buffer_guard_insufficient (type : DataType) (name : string)
    (n len : Z) (b0 b1 : Buffer) :
  is_binary_like (DataType_id type) = true ->
  ARROW_RETURN_IF (Z.of_nat (length [Some b0; Some b1]) <? 2)
    (Status_Invalid [Str "ArrayData must have at least 2 buffers"]) = Ok tt /\
  vector_at [Some b0; Some b1] 2 = Faulted (OutOfBounds 2) /\
  (BytesForBits n <= Buffer_capacity b0 ->
   BytesForBits (Int64.mul (Int64.add n 1) 32) <= Buffer_capacity b1 ->
   ValidateArrayDataCapacity (ArrayData_Make type len [Some b0; Some b1])
     {| Field_name := name; Field_type := type |} n = Faulted (OutOfBounds 2)) /\
  ValidateArrayDataCapacity (ArrayData_Make type len [Some b0; Some b1])
    {| Field_name := name; Field_type := type |} n <> Ok tt.
Proof.
  intros Hbin. split; [reflexivity|]. split; [reflexivity|].
  rewrite Validate_varlen_two_buffers by done. split.
  - intros H0 H1.
    destruct (Z.ltb_spec (Buffer_capacity b0) (BytesForBits n)); [lia|].
    destruct (Z.ltb_spec (Buffer_capacity b1)
                (BytesForBits (Int64.mul (Int64.add n 1) 32))); [lia|done].
  - destruct (_ <? _); [done|]. by destruct (_ <? _).
Qed.

End ShapeProperties.

Section BuildProperties.
Context {arrow_types : ArrowTypes} {arrow_lib : Arrow} {gandiva_lib : Gandiva}
        {projector_cache : ProjectorCache}.

#[local] Arguments logged : simpl never.

Lemma logged_nil (w : World) : logged [] w = w.
Proof. destruct w. unfold logged. simpl. by rewrite app_nil_r. Qed.

Lemma logged_logged (l1 l2 : list Event) (w : World) :
  logged l2 (logged l1 w) = logged (l1 ++ l2) w.
Proof. unfold logged. simpl. by rewrite app_assoc. Qed.

Lemma logged_with_cache (l : list Event) (cache' : Cache) (w : World) :
  logged l (with_cache cache' w) = with_cache cache' (logged l w).
Proof. reflexivity. Qed.

Lemma log_call_logged (e : Event) (w : World) : log_call e w = (Ok tt, logged [e] w).
Proof. reflexivity. Qed.

(** *** The validation loop *)

Lemma validate_each_all_valid (g : LLVMGenerator) (s : Schema)
    (exprs : list Expression) (w : World) :
  Forall (fun e => ExprValidator_Validate g s e = Ok tt) exprs ->
  validate_each g s exprs w = (Ok tt, logged (map CallValidate exprs) w).
Proof.
  revert w. induction exprs as [|e exprs IH]; intros w Hall; simpl.
  - by rewrite logged_nil.
  - inversion Hall as [|? ? He Hrest]; subst. run_prog.
    rewrite He. rewrite IH by done. by rewrite logged_logged.
Qed.

Lemma validate_each_first_invalid (g : LLVMGenerator) (s : Schema)
    (pre post : list Expression) (e : Expression) (w : World)
    (code : StatusCode) (msg : message) :
  Forall (fun e => ExprValidator_Validate g s e = Ok tt) pre ->
  ExprValidator_Validate g s e = Raise code msg ->
  validate_each g s (pre ++ e :: post) w =
  (Raise code msg, logged (map CallValidate (pre ++ [e])) w).
Proof.
  revert w. induction pre as [|x pre IH]; intros w Hall He; simpl.
  - run_prog. by rewrite He.
  - inversion Hall as [|? ? Hx Hrest]; subst. run_prog.
    rewrite Hx. rewrite IH by done. by rewrite logged_logged.
Qed.

(** Whatever the outcome, the loop only logs validations; when it
    succeeds every expression is valid. *)
Lemma validate_each_outcome (g : LLVMGenerator) (s : Schema)
    (exprs : list Expression) (w w' : World) (r : res unit) :
  validate_each g s exprs w = (r, w') ->
  exists validated : list Expression,
    w' = logged (map CallValidate validated) w /\
    (r = Ok tt -> Forall (fun e => ExprValidator_Validate g s e = Ok tt) exprs).
Proof.
  revert w. induction exprs as [|e exprs IH]; intros w; simpl.
  - intros [= <- <-]. exists []. by rewrite logged_nil.
  - run_prog. destruct (ExprValidator_Validate g s e) as [[]| |] eqn:He.
    + intros Hrest. destruct (IH _ Hrest) as (validated & -> & Hok).
      exists (e :: validated). rewrite logged_logged. split; [done|].
      intros Hr. constructor; auto.
    + intros [= <- <-]. exists [e]. split; [done | discriminate].
    + intros [= <- <-]. exists [e]. split; [done | discriminate].
Qed.

(** *** Make, path by path *)

Lemma Make_checked (s : Schema) (c : Configuration) (exprs : list Expression)
    (mode : Mode) (tid elapsed : Z) (w : World) :
  exprs <> [] ->
  Make (Some s) exprs mode (Some c) tid elapsed w =
  let cache_key := ProjectorCacheKey_new s c exprs mode tid in
  let '(found, cache') := Cache_GetModule cache_key (world_cache w) in
  let w1 := with_cache cache' (logged [CallKeyNew; CallGetModule] w) in
  match found with
  | Some p => (Ok p, w1)
  | None =>
      (llvm_gen ← lift (LLVMGenerator_Make c);
       validate_each llvm_gen s exprs;;
       log_call CallBuild;;
       llvm_gen ← lift (LLVMGenerator_Build llvm_gen exprs mode);
       projector ← new_Projector llvm_gen s (map Expression_result exprs) c;
       cache_PutModule cache_key {| vco_module := projector; vco_cost := elapsed |};;
       mret projector) (logged [CallGeneratorMake] w1)
  end.
Proof.
  intros Hne. destruct exprs as [|e exprs]; [done|].
  unfold Make, new_cache_key, cache_GetModule, log_call. run_prog. run_res.
  destruct (Cache_GetModule _ _) as [[p|] cache']; simpl.
  - unfold with_cache, logged. simpl. by rewrite <- app_assoc.
  - unfold with_cache, logged. simpl. by rewrite <- !app_assoc.
Qed.

(** The build after a miss, split at its first failure. *)
Lemma build_outcome (s : Schema) (c : Configuration) (exprs : list Expression)
    (mode : Mode) (elapsed : Z) (cache_key : ProjectorCacheKey)
    (w w' : World) (r : res Projector) :
  (llvm_gen ← lift (LLVMGenerator_Make c);
   validate_each llvm_gen s exprs;;
   log_call CallBuild;;
   llvm_gen ← lift (LLVMGenerator_Build llvm_gen exprs mode);
   projector ← new_Projector llvm_gen s (map Expression_result exprs) c;
   cache_PutModule cache_key {| vco_module := projector; vco_cost := elapsed |};;
   mret projector) w = (r, w') ->
  (exists calls : list Event,
      w' = logged calls w /\ (CallPutModule ∉ calls) /\ (forall p, r <> Ok p)) \/
  (exists (g g' : LLVMGenerator) (p : Projector),
      LLVMGenerator_Make c = Ok g /\
      Forall (fun e => ExprValidator_Validate g s e = Ok tt) exprs /\
      LLVMGenerator_Build g exprs mode = Ok g' /\
      r = Ok p /\
      Projector_address p = world_next_address w /\
      world_cache w' =
        Cache_PutModule cache_key {| vco_module := p; vco_cost := elapsed |}
          (world_cache w)).
Proof.
  run_prog. destruct (LLVMGenerator_Make c) as [g| |] eqn:Hg.
  2,3: intros [= <- <-]; left; exists []; rewrite logged_nil;
       repeat split; [apply not_elem_of_nil | discriminate].
  destruct (validate_each g s exprs w) as [rv wv] eqn:Hv.
  destruct (validate_each_outcome _ _ _ _ _ _ Hv) as (validated & -> & Hvalid).
  assert (Hnoput : forall tail : list Event,
             CallPutModule ∉ tail ->
             CallPutModule ∉ map CallValidate validated ++ tail).
  { intros tail Htail [Hin|Hin]%elem_of_app; [|done].
    apply list_elem_of_fmap in Hin as (? & ? & ?). discriminate. }
  destruct rv as [[]| |].
  2,3: intros [= <- <-]; left; exists (map CallValidate validated);
       repeat split; [|discriminate];
       rewrite <- (app_nil_r (map _ _)); apply Hnoput, not_elem_of_nil.
  unfold log_call. run_prog. rewrite logged_logged.
  destruct (LLVMGenerator_Build g exprs mode) as [g'| |] eqn:Hb.
  2,3: intros [= <- <-]; left; eexists; repeat split; [|discriminate];
       apply Hnoput; intros [Heq|Hnil%elem_of_nil]%elem_of_cons;
       [discriminate | done].
  unfold new_Projector, cache_PutModule, log_call. run_prog.
  intros [= <- <-]. right. exists g, g'. eexists. repeat split; eauto.
Qed.

(** *** The claims about the build *)

(** C4: [Projector::Make] fails with an invalid-argument status when the
    schema is null, the expression list is empty or the configuration is
    null; the world is then left as it was: no cache key was constructed,
    the cache was neither read nor written, and the backend was not
    called. *)
Theorem Make_rejects_missing_arguments (schema : option Schema)
    (exprs : list Expression) (mode : Mode) (configuration : option Configuration)
    (tid elapsed : Z) (w : World) :
  schema = None \/ exprs = [] \/ configuration = None ->
  exists msg : message,
    Make schema exprs mode configuration tid elapsed w = (Raise Invalid msg, w).
Proof.
  intros Hbad. unfold Make.
  destruct schema as [s|]; [|eexists; reflexivity].
  destruct exprs as [|e exprs]; [eexists; reflexivity|].
  destruct configuration as [c|]; [|eexists; reflexivity].
  destruct Hbad as [?|[?|?]]; discriminate.
Qed.

(** C5: after a cache miss, a failure of the generator's construction, of
    the validation of an expression (the expressions being validated in
    list order up to the first invalid one) or of the compilation is
    returned as it is, and the cache is left as the lookup left it;
    whenever [Make] does not succeed, no call to [PutModule] has been
    made; and when it succeeds after a miss, every step before the
    insertion has succeeded. *)
Theorem Make_failure_inserts_nothing (s : Schema) (c : Configuration)
    (exprs : list Expression) (mode : Mode) (tid elapsed : Z) (w : World)
    (cache' : Cache) :
  exprs <> [] ->
  Cache_GetModule (ProjectorCacheKey_new s c exprs mode tid) (world_cache w) =
    (None, cache') ->
  (forall code msg,
      LLVMGenerator_Make c = Raise code msg ->
      Make (Some s) exprs mode (Some c) tid elapsed w =
      (Raise code msg,
       with_cache cache' (logged [CallKeyNew; CallGetModule; CallGeneratorMake] w))) /\
  (forall g pre e post code msg,
      LLVMGenerator_Make c = Ok g ->
      exprs = pre ++ e :: post ->
      Forall (fun x => ExprValidator_Validate g s x = Ok tt) pre ->
      ExprValidator_Validate g s e = Raise code msg ->
      Make (Some s) exprs mode (Some c) tid elapsed w =
      (Raise code msg,
       with_cache cache'
         (logged ([CallKeyNew; CallGetModule; CallGeneratorMake] ++
                  map CallValidate (pre ++ [e])) w))) /\
  (forall g code msg,
      LLVMGenerator_Make c = Ok g ->
      Forall (fun x => ExprValidator_Validate g s x = Ok tt) exprs ->
      LLVMGenerator_Build g exprs mode = Raise code msg ->
      Make (Some s) exprs mode (Some c) tid elapsed w =
      (Raise code msg,
       with_cache cache'
         (logged ([CallKeyNew; CallGetModule; CallGeneratorMake] ++
                  map CallValidate exprs ++ [CallBuild]) w))) /\
  (forall r w',
      Make (Some s) exprs mode (Some c) tid elapsed w = (r, w') ->
      (forall p, r <> Ok p) ->
      world_cache w' = cache' /\
      exists calls, world_log w' = world_log w ++ calls /\ (CallPutModule ∉ calls)) /\
  (forall p w',
      Make (Some s) exprs mode (Some c) tid elapsed w = (Ok p, w') ->
      exists g g',
        LLVMGenerator_Make c = Ok g /\
        Forall (fun x => ExprValidator_Validate g s x = Ok tt) exprs /\
        LLVMGenerator_Build g exprs mode = Ok g' /\
        world_cache w' =
          Cache_PutModule (ProjectorCacheKey_new s c exprs mode tid)
            {| vco_module := p; vco_cost := elapsed |} cache').
Proof.
  intros Hne Hmiss. rewrite Make_checked by done. cbv zeta. rewrite Hmiss.
  split; [|split; [|split; [|split; [intros r w' H H0; split|]]]].
  - intros code msg Hg. run_prog. rewrite Hg.
    by rewrite logged_with_cache, logged_logged.
  - intros g pre e post code msg Hg -> Hpre He. run_prog. rewrite Hg.
    rewrite (validate_each_first_invalid g s pre post e _ code msg) by done.
    by rewrite !logged_with_cache, !logged_logged.
  - intros g code msg Hg Hall Hb. run_prog. rewrite Hg.
    rewrite validate_each_all_valid by done.
    unfold log_call. run_prog. rewrite Hb.
    by rewrite !logged_with_cache, !logged_logged.
  - apply build_outcome in H as [(calls & -> & Hnoput & Hfail)|
                                 (g & g' & p & _ & _ & _ & -> & _)]; [done|].
    by destruct (H0 p).
  - apply build_outcome in H as [(calls & -> & Hnoput & Hfail)|
                                 (g & g' & p & _ & _ & _ & -> & _)];
      [|by destruct (H0 p)].
    exists ([CallKeyNew; CallGetModule; CallGeneratorMake] ++ calls).
    split; [unfold logged, with_cache; simpl; by rewrite <- !app_assoc|].
    intros [Hin|Hin]%elem_of_app; [|done].
    repeat (apply elem_of_cons in Hin as [Hin|Hin]; [discriminate|]).
    by apply elem_of_nil in Hin.
  - intros p w' Hmake.
    apply build_outcome in Hmake as [(calls & _ & _ & Hfail)|
                                     (g & g' & p' & Hg & Hv & Hb & [= <-] & _ & Hc)].
    + by destruct (Hfail p).
    + exists g, g'. repeat split; done.
Qed.

(** C6: when the lookup finds a projector, [Make] returns that projector
    and does nothing beyond constructing the key and reading the cache:
    no generator is made, nothing is validated or compiled, no object is
    created and nothing is inserted.  Hence, for a cache that finds what
    was found, or inserted after a miss, under an equal key, a second
    build whose key compares equal to the key of a build that succeeded
    returns the very same projector. *)
Theorem Make_cache_hit_reuses :
  (forall (k k' : ProjectorCacheKey) (v : ValueCacheObject) (cache cache' : Cache),
      Cache_GetModule k cache = (None, cache') ->
      ProjectorCacheKey_eq k k' = true ->
      fst (Cache_GetModule k' (Cache_PutModule k v cache')) = Some (vco_module v)) ->
  (forall (k k' : ProjectorCacheKey) (cache cache' : Cache) (p : Projector),
      Cache_GetModule k cache = (Some p, cache') ->
      ProjectorCacheKey_eq k k' = true ->
      fst (Cache_GetModule k' cache') = Some p) ->
  (forall s c exprs mode tid elapsed (w : World) p cache',
      exprs <> [] ->
      Cache_GetModule (ProjectorCacheKey_new s c exprs mode tid) (world_cache w) =
        (Some p, cache') ->
      Make (Some s) exprs mode (Some c) tid elapsed w =
      (Ok p, with_cache cache' (logged [CallKeyNew; CallGetModule] w))) /\
  (forall s1 c1 exprs1 mode1 tid1 elapsed1 s2 c2 exprs2 mode2 tid2 elapsed2
          (w w1 : World) p1,
      exprs2 <> [] ->
      Make (Some s1) exprs1 mode1 (Some c1) tid1 elapsed1 w = (Ok p1, w1) ->
      ProjectorCacheKey_eq (ProjectorCacheKey_new s1 c1 exprs1 mode1 tid1)
        (ProjectorCacheKey_new s2 c2 exprs2 mode2 tid2) = true ->
      exists cache2,
        Make (Some s2) exprs2 mode2 (Some c2) tid2 elapsed2 w1 =
        (Ok p1, with_cache cache2 (logged [CallKeyNew; CallGetModule] w1))).
Proof.
  intros Hput Hget.
  assert (Hhit : forall s c exprs mode tid elapsed (w : World) p cache',
             exprs <> [] ->
             Cache_GetModule (ProjectorCacheKey_new s c exprs mode tid) (world_cache w) =
               (Some p, cache') ->
             Make (Some s) exprs mode (Some c) tid elapsed w =
             (Ok p, with_cache cache' (logged [CallKeyNew; CallGetModule] w))).
  { intros s c exprs mode tid elapsed w p cache' Hne Hfound.
    rewrite Make_checked by done. cbv zeta. by rewrite Hfound. }
  split; [exact Hhit|].
  intros s1 c1 exprs1 mode1 tid1 elapsed1 s2 c2 exprs2 mode2 tid2 elapsed2
    w w1 p1 Hne2 Hfirst Heq.
  assert (Hne1 : exprs1 <> []).
  { intros ->. unfold Make in Hfirst. run_prog. discriminate. }
  assert (Hfound : fst (Cache_GetModule (ProjectorCacheKey_new s2 c2 exprs2 mode2 tid2)
                          (world_cache w1)) = Some p1).
  { rewrite Make_checked in Hfirst by done. cbv zeta in Hfirst.
    destruct (Cache_GetModule (ProjectorCacheKey_new s1 c1 exprs1 mode1 tid1)
                (world_cache w)) as [[p|] cache'] eqn:Hlookup.
    - injection Hfirst as <- <-. simpl. by eapply Hget.
    - apply build_outcome in Hfirst
        as [(calls & _ & _ & Hfail)|(g & g' & p & _ & _ & _ & [= <-] & _ & ->)].
      + by destruct (Hfail p1).
      + by eapply Hput. }
  destruct (Cache_GetModule (ProjectorCacheKey_new s2 c2 exprs2 mode2 tid2)
              (world_cache w1)) as [found cache2] eqn:Hlookup2.
  simpl in Hfound. subst found. exists cache2. by apply Hhit.
Qed.

End BuildProperties.

Section EvaluateProperties.
Context {arrow_types : ArrowTypes} {arrow_lib : Arrow} {gandiva_lib : Gandiva}
        {projector_cache : ProjectorCache}.

Lemma ValidateEvaluateArgsCommon_rejects (this : Projector) (batch : RecordBatch) :
  Schema_Equals (RecordBatch_schema batch) (Projector_schema_ this)
    check_metadata_default = false \/
  RecordBatch_num_rows batch = 0 ->
  is_invalid (ValidateEvaluateArgsCommon this batch).
Proof.
  unfold ValidateEvaluateArgsCommon, is_invalid. run_res.
  intros [Hschema|Hrows].
  - rewrite Hschema. simpl. eauto.
  - rewrite Hrows. simpl. destruct (Schema_Equals _ _ _); simpl; eauto.
Qed.

(** C7: both evaluation entry points fail with an invalid-argument
    status when the schema of the batch does not equal the schema of the
    projector or when the batch has no rows; the world is then left as it
    was, so nothing was allocated and the generator's [Execute] was not
    called. *)
Theorem Evaluate_rejects_mismatch_or_empty (this : Projector) (batch : RecordBatch)
    (selection_vector : option SelectionVector)
    (output_data_vecs : list (option ArrayData)) (pool : option MemoryPoolRef)
    (output : option (list Array)) (w : World) :
  Schema_Equals (RecordBatch_schema batch) (Projector_schema_ this)
    check_metadata_default = false \/
  RecordBatch_num_rows batch = 0 ->
  (exists msg : message,
      Evaluate this batch selection_vector output_data_vecs w =
      (Raise Invalid msg, w)) /\
  (exists msg : message,
      Evaluate_alloc this batch selection_vector pool output w =
      (Raise Invalid msg, w)).
Proof.
  intros Hbad.
  destruct (ValidateEvaluateArgsCommon_rejects this batch Hbad) as [msg Hmsg].
  split; exists msg.
  - unfold Evaluate. run_prog. by rewrite Hmsg.
  - unfold Evaluate_alloc. run_prog. by rewrite Hmsg.
Qed.

End EvaluateProperties.

(** ** The properties on the concrete instance *)

Section OnSample.
Import Sample.
#[local] Existing Instances types arrow gandiva cache.

Lemma sample_schema_equivalence :
  Equivalence (fun s1 s2 : Schema => Schema_Equals s1 s2 true = true).
Proof.
  split; red; simpl; intros *; rewrite ?bool_decide_eq_true; congruence.
Qed.

Lemma sample_configuration_equivalence :
  Equivalence (fun c1 c2 : Configuration => Configuration_eqb c1 c2 = true).
Proof.
  split; red; simpl; intros *; rewrite ?Nat.eqb_eq; congruence.
Qed.

Lemma sample_key_equivalence :
  Equivalence (fun k1 k2 : ProjectorCacheKey => ProjectorCacheKey_eq k1 k2 = true).
Proof.
  apply ProjectorCacheKey_eq_is_equivalence;
    [apply sample_schema_equivalence | apply sample_configuration_equivalence].
Qed.

Lemma sample_schema_prints (s1 s2 : Schema) :
  Schema_Equals s1 s2 true = true -> Schema_ToString s1 = Schema_ToString s2.
Proof. simpl. rewrite bool_decide_eq_true. by intros ->. Qed.

Lemma sample_configuration_hashes (c1 c2 : Configuration) :
  Configuration_eqb c1 c2 = true -> Configuration_Hash c1 = Configuration_Hash c2.
Proof. simpl. rewrite Nat.eqb_eq. by intros ->. Qed.

Lemma sample_cache_finds_inserted (k k' : ProjectorCacheKey) (v : ValueCacheObject)
    (c c' : Cache) :
  Cache_GetModule k c = (None, c') ->
  ProjectorCacheKey_eq k k' = true ->
  fst (Cache_GetModule k' (Cache_PutModule k v c')) = Some (vco_module v).
Proof. intros _ Heq. simpl. by rewrite Heq. Qed.

Lemma sample_cache_finds_again (k k' : ProjectorCacheKey) (c c' : Cache)
    (p : Projector) :
  Cache_GetModule k c = (Some p, c') ->
  ProjectorCacheKey_eq k k' = true ->
  fst (Cache_GetModule k' c') = Some p.
Proof.
  destruct sample_key_equivalence as [Hrefl Hsym Htrans].
  simpl. intros Hfound Heq.
  assert (Hsame : forall x, ProjectorCacheKey_eq x k = ProjectorCacheKey_eq x k').
  { intros x.
    destruct (ProjectorCacheKey_eq x k) eqn:Hxk, (ProjectorCacheKey_eq x k') eqn:Hxk';
      try done.
    - rewrite <- Hxk'. symmetry. by eapply Htrans.
    - rewrite <- Hxk. eapply Htrans; [done|]. by apply Hsym. }
  injection Hfound as Hfound <-.
  revert Hfound. induction c as [|kv c IH]; simpl; [done|].
  rewrite <- Hsame. destruct (ProjectorCacheKey_eq (fst kv) k); [done|]. apply IH.
Qed.

(** *** Witnesses *)


Lemma ProjectorCacheKey_eq_equivalence_witness :
  Equivalence (fun k1 k2 : ProjectorCacheKey => ProjectorCacheKey_eq k1 k2 = true) /\
  ProjectorCacheKey_eq_compared
    (ProjectorCacheKey_new a_schema level2 [add_expr] Mode_NONE 7)
    (ProjectorCacheKey_new a_schema level2 [upper_expr] Mode_NONE 7) =
  ([CmpSchema; CmpConfiguration; CmpExpressions], false).
Proof.
  destruct (ProjectorCacheKey_eq_equivalence sample_schema_equivalence
              sample_configuration_equivalence) as (Hequiv & _ & Hcompared).
  split; [exact Hequiv|]. rewrite Hcompared. reflexivity.
Defined.

Lemma ProjectorCacheKey_Hash_consistent_witness :
  ProjectorCacheKey_Hash
    (ProjectorCacheKey_new a_schema level2 [add_expr; upper_expr] Mode_NONE 111) =
  ProjectorCacheKey_Hash
    (ProjectorCacheKey_new a_schema level2 [add_expr; upper_expr] Mode_NONE 222).
Proof.
  apply (ProjectorCacheKey_Hash_consistent sample_schema_prints
           sample_configuration_hashes).
  vm_compute. reflexivity.
Defined.

Lemma Make_rejects_missing_arguments_witness :
  exists msg : message,
    Make (Some a_schema) [] Mode_NONE (Some level2) 111 5 empty_world =
    (Raise Invalid msg, empty_world).
Proof.
  apply Make_rejects_missing_arguments. right. left. reflexivity.
Defined.

Lemma Make_failure_inserts_nothing_witness :
  Make (Some a_schema) [add_expr; empty_expr; upper_expr] Mode_NONE (Some level2)
    111 5 empty_world =
  (Raise (OtherCode 2) [Str "empty expression"],
   with_cache []
     (logged [CallKeyNew; CallGetModule; CallGeneratorMake;
              CallValidate add_expr; CallValidate empty_expr] empty_world)).
Proof.
  assert (Hne : [add_expr; empty_expr; upper_expr] <> []) by discriminate.
  assert (Hmiss : Cache_GetModule
                    (ProjectorCacheKey_new a_schema level2
                       [add_expr; empty_expr; upper_expr] Mode_NONE 111)
                    (world_cache empty_world) = (None, [])) by reflexivity.
  destruct (Make_failure_inserts_nothing a_schema level2
              [add_expr; empty_expr; upper_expr] Mode_NONE 111 5 empty_world []
              Hne Hmiss) as (_ & Hvalidate & _).
  apply (Hvalidate generator2 [add_expr] empty_expr [upper_expr]);
    [reflexivity | reflexivity | | reflexivity].
  constructor; [reflexivity | constructor].
Defined.

Lemma Make_cache_hit_reuses_witness :
  exists (p : Projector) (w1 : World) (cache2 : Cache),
    Make (Some a_schema) [add_expr; upper_expr] Mode_NONE (Some level2) 111 5
      empty_world = (Ok p, w1) /\
    Make (Some a_schema) [add_expr; upper_expr] Mode_NONE (Some level2) 222 9 w1 =
      (Ok p, with_cache cache2 (logged [CallKeyNew; CallGetModule] w1)).
Proof.
  destruct (Make (Some a_schema) [add_expr; upper_expr] Mode_NONE (Some level2) 111 5
              empty_world) as [r w1] eqn:Hfirst.
  assert (Hok : exists p, r = Ok p).
  { revert Hfirst. cbn. intros [= <- _]. eauto. }
  destruct Hok as [p ->].
  destruct (Make_cache_hit_reuses sample_cache_finds_inserted sample_cache_finds_again)
    as [_ Htwice].
  destruct (Htwice a_schema level2 [add_expr; upper_expr] Mode_NONE 111 5
              a_schema level2 [add_expr; upper_expr] Mode_NONE 222 9
              empty_world w1 p) as [cache2 Hsecond];
    [discriminate | exact Hfirst | reflexivity |].
  exists p, w1, cache2. split; [reflexivity | exact Hsecond].
Defined.

Lemma Evaluate_rejects_mismatch_or_empty_witness :
  (exists msg : message,
      Evaluate a_projector empty_batch None [] empty_world =
      (Raise Invalid msg, empty_world)) /\
  (exists msg : message,
      Evaluate_alloc a_projector empty_batch None (Some the_pool) (Some [])
        empty_world = (Raise Invalid msg, empty_world)).
Proof.
  apply Evaluate_rejects_mismatch_or_empty. right. reflexivity.
Defined.

Lemma varlen_data_buffer_must_be_resizable_witness :
  is_invalid
    (ValidateArrayDataCapacity
       (ArrayData_Make string_type 10
          [Some string_bitmap; Some string_offsets; Some fixed_data])
       string_field 10).
Proof.
  destruct (varlen_data_buffer_must_be_resizable string_type "t" 10 10
              string_bitmap string_offsets [] eq_refl) as (_ & Hfixed & _).
  apply (Hfixed fixed_data). reflexivity.
Defined.

Lemma two_buffer_guard_insufficient_witness :
  ValidateArrayDataCapacity
    (ArrayData_Make string_type 10 [Some string_bitmap; Some string_offsets])
    string_field 10 = Faulted (OutOfBounds 2).
Proof.
  destruct (two_buffer_guard_insufficient string_type "t" 10 10
              string_bitmap string_offsets eq_refl) as (_ & _ & Hfault & _).
  apply Hfault; vm_compute; discriminate.
Defined.

(** *** Runs *)

Example uniqifier_without_like :
  key_uniqifier_
    (ProjectorCacheKey_new a_schema level2 [add_expr; upper_expr] Mode_NONE 111) = 0.
Proof. reflexivity. Qed.

Example uniqifier_with_like :
  key_uniqifier_
    (ProjectorCacheKey_new a_schema level2 [add_expr; like_expr] Mode_NONE 111) = 15.
Proof. reflexivity. Qed.

Example keys_of_two_threads_differ :
  ProjectorCacheKey_eq
    (ProjectorCacheKey_new a_schema level2 [like_expr] Mode_NONE 111)
    (ProjectorCacheKey_new a_schema level2 [like_expr] Mode_NONE 222) = false.
Proof. reflexivity. Qed.

Example alloc_string_column :
  world_log (snd (AllocArrayData string_type 10 empty_world)) =
  [CallAllocateBuffer 2; CallAllocateBuffer 44; CallAllocateResizableBuffer 0].
Proof. reflexivity. Qed.

Example allocated_string_column_validates :
  match fst (AllocArrayData string_type 10 empty_world) with
  | Ok ad => ValidateArrayDataCapacity ad string_field 10 = Ok tt
  | _ => False
  end.
Proof. reflexivity. Qed.

Example alloc_list_column_unsupported :
  fst (AllocArrayData list_type 10 empty_world) =
  Raise Invalid [Str "Unsupported output data type list<item: int32>"].
Proof. reflexivity. Qed.

Example build_fails_at_compile :
  fst (Make (Some a_schema) [add_expr; div0_expr] Mode_NONE (Some level2) 111 5
         empty_world) = Raise (OtherCode 3) [Str "could not compile"] /\
  world_cache (snd (Make (Some a_schema) [add_expr; div0_expr] Mode_NONE (Some level2)
                      111 5 empty_world)) = [].
Proof. split; reflexivity. Qed.

End OnSample.

(** * Further properties *)

Section ShapeFurther.
Context {arrow_types : ArrowTypes} {arrow_lib : Arrow} {gandiva_lib : Gandiva}
        {projector_cache : ProjectorCache}.

#[local] Arguments logged : simpl never.

(** The validator reads the buffers of the vector only. *)
Lemma Validate_buffers_only (ad : ArrayData) (field : Field) (n : Z) :
  ValidateArrayDataCapacity ad field n =
  ValidateArrayDataCapacity
    (ArrayData_Make (Field_type field) 0 (ArrayData_buffers ad))
    {| Field_name := Field_name field; Field_type := Field_type field |} n.
Proof. by destruct ad, field. Qed.

(** What an accepted vector looks like. *)
Lemma Validate_ok_inv (ad : ArrayData) (field : Field) (n : Z) :
  ValidateArrayDataCapacity ad field n = Ok tt ->
  exists (b0 b1 : Buffer) (rest : list (option Buffer)),
    ArrayData_buffers ad = Some b0 :: Some b1 :: rest /\
    BytesForBits n <= Buffer_capacity b0 /\
    ((is_binary_like (DataType_id (Field_type field)) = true /\
      BytesForBits (Int64.mul (Int64.add n 1) 32) <= Buffer_capacity b1 /\
      exists p2 rest', rest = p2 :: rest' /\ as_ResizableBuffer p2 <> None) \/
     (is_binary_like (DataType_id (Field_type field)) = false /\
      is_primitive (DataType_id (Field_type field)) ||
        bool_decide (DataType_id (Field_type field) = DECIMAL) = true /\
      exists bw, DataType_bit_width (Field_type field) = Some bw /\
                 BytesForBits (Int64.mul n bw) <= Buffer_capacity b1)).
Proof.
  rewrite Validate_buffers_only.
  destruct (ArrayData_buffers ad) as [|p0 [|p1 rest]]; [done..|].
  destruct p0 as [b0|], p1 as [b1|];
    [|unfold ValidateArrayDataCapacity;
      cbn [ArrayData_buffers ArrayData_Make Field_type Field_name];
      rewrite at_least_two_buffers; unfold FixedWidthType_bit_width; run_res;
      repeat case_match; done..].
  destruct (is_binary_like (DataType_id (Field_type field))) eqn:Hbin.
  - destruct rest as [|p2 rest'].
    + rewrite Validate_varlen_two_buffers by done.
      destruct (_ <? _); [done|]. by destruct (_ <? _).
    + rewrite Validate_varlen by done.
      destruct (Z.ltb_spec (Buffer_capacity b0) (BytesForBits n)); [done|].
      destruct (Z.ltb_spec (Buffer_capacity b1)
                  (BytesForBits (Int64.mul (Int64.add n 1) 32))); [done|].
      case_bool_decide as Hres; [done|]. intros _.
      exists b0, b1, (p2 :: rest'). repeat split; [done|]. left. eauto 10.
  - destruct (is_primitive _ || _) eqn:Hfix.
    + destruct (DataType_bit_width (Field_type field)) as [bw|] eqn:Hbw.
      * rewrite (Validate_fixed _ _ _ bw) by done.
        destruct (Z.ltb_spec (Buffer_capacity b0) (BytesForBits n)); [done|].
        destruct (Z.ltb_spec (Buffer_capacity b1) (BytesForBits (Int64.mul n bw)));
          [done|].
        intros _. exists b0, b1, rest. repeat split; [done|]. right. eauto 10.
      * unfold ValidateArrayDataCapacity, FixedWidthType_bit_width.
        cbn [ArrayData_buffers ArrayData_Make Field_type Field_name].
        rewrite at_least_two_buffers, Hbin, Hfix, Hbw. run_res.
        by destruct (_ <? _).
    + unfold ValidateArrayDataCapacity.
      cbn [ArrayData_buffers ArrayData_Make Field_type Field_name].
      rewrite at_least_two_buffers, Hbin, Hfix. run_res.
      by destruct (_ <? _).
Qed.

(** X1: a vector with fewer than two buffers is refused at once, with one
    message, whatever the type of the field and whatever the buffers. *)
Theorem Validate_too_few_buffers (ad : ArrayData) (field : Field) (n : Z) :
  (length (ArrayData_buffers ad) < 2)%nat ->
  ValidateArrayDataCapacity ad field n =
  Raise Invalid [Str "ArrayData must have at least 2 buffers"].
Proof.
  intros Hlen. unfold ValidateArrayDataCapacity.
  destruct (Z.ltb_spec (Z.of_nat (length (ArrayData_buffers ad))) 2); [done|lia].
Qed.

(** X2: an output type that is neither binary-like nor primitive nor
    decimal is never accepted; once the bitmap is large enough the
    refusal names the type. *)
Theorem Validate_unsupported_type (ad : ArrayData) (field : Field) (n : Z) :
  is_binary_like (DataType_id (Field_type field)) = false ->
  is_primitive (DataType_id (Field_type field)) ||
    bool_decide (DataType_id (Field_type field) = DECIMAL) = false ->
  ValidateArrayDataCapacity ad field n <> Ok tt /\
  (forall b0 p1 rest,
      ArrayData_buffers ad = Some b0 :: p1 :: rest ->
      BytesForBits n <= Buffer_capacity b0 ->
      ValidateArrayDataCapacity ad field n =
      Raise Invalid [Str ("Unsupported output data type " +:+
                          DataType_ToString (Field_type field))]).
Proof.
  intros Hbin Hfix. split.
  - intros (b0 & b1 & rest & _ & _ & [[Hb _]|[_ [Hf _]]])%Validate_ok_inv; congruence.
  - intros b0 p1 rest Hbufs Hcap. unfold ValidateArrayDataCapacity.
    rewrite Hbufs, at_least_two_buffers, Hbin, Hfix. run_res.
    destruct (Z.ltb_spec (Buffer_capacity b0) (BytesForBits n)); [lia|done].
Qed.

(** X3: on a vector whose first two buffers are not null, with a third
    buffer when the field is binary-like and a bit width when it is
    primitive or decimal, validation has no run-time fault: it accepts or
    fails with an invalid-argument status. *)
Theorem Validate_without_fault (ad : ArrayData) (field : Field) (n : Z)
    (b0 b1 : Buffer) (rest : list (option Buffer)) :
  ArrayData_buffers ad = Some b0 :: Some b1 :: rest ->
  (is_binary_like (DataType_id (Field_type field)) = true -> rest <> []) ->
  (is_binary_like (DataType_id (Field_type field)) = false ->
   is_primitive (DataType_id (Field_type field)) ||
     bool_decide (DataType_id (Field_type field) = DECIMAL) = true ->
   DataType_bit_width (Field_type field) <> None) ->
  ValidateArrayDataCapacity ad field n = Ok tt \/
  is_invalid (ValidateArrayDataCapacity ad field n).
Proof.
  intros Hbufs Hthird Hwidth. rewrite Validate_buffers_only, Hbufs.
  unfold is_invalid, Status_Invalid.
  destruct (is_binary_like (DataType_id (Field_type field))) eqn:Hbin.
  - destruct rest as [|p2 rest']; [by destruct Hthird|].
    rewrite Validate_varlen by done. unfold Status_Invalid.
    destruct (_ <? _); [eauto|]. destruct (_ <? _); [eauto|].
    destruct (bool_decide (as_ResizableBuffer p2 = None)); eauto.
  - destruct (is_primitive _ || _) eqn:Hfix.
    + destruct (DataType_bit_width (Field_type field)) as [bw|] eqn:Hbw;
        [|by destruct Hwidth].
      rewrite (Validate_fixed _ _ _ bw) by done. unfold Status_Invalid.
      destruct (_ <? _); [eauto|]. destruct (_ <? _); eauto.
    + unfold ValidateArrayDataCapacity.
      cbn [ArrayData_buffers ArrayData_Make Field_type Field_name].
      rewrite at_least_two_buffers, Hbin, Hfix. run_res.
      destruct (_ <? _); eauto.
Qed.

(** X4: validation asks for minimum capacities only: a vector that is
    accepted stays accepted when its buffers are replaced by buffers of
    the same class and of at least their capacity, and when more buffers
    are added at the end. *)
Theorem Validate_larger_buffers (ad ad' : ArrayData) (field : Field) (n : Z)
    (extra : list (option Buffer)) (grown : list (option Buffer)) :
  ValidateArrayDataCapacity ad field n = Ok tt ->
  Forall2 buffer_covers (ArrayData_buffers ad) grown ->
  ArrayData_buffers ad' = grown ++ extra ->
  ValidateArrayDataCapacity ad' field n = Ok tt.
Proof.
  intros (b0 & b1 & rest & Hbufs & Hcap0 & Hcase)%Validate_ok_inv Hgrown Hbufs'.
  rewrite Hbufs in Hgrown.
  apply Forall2_cons_inv_l in Hgrown as (p0' & g1 & Hc0 & Hgrown & ->).
  apply Forall2_cons_inv_l in Hgrown as (p1' & g2 & Hc1 & Hgrown & ->).
  destruct p0' as [b0'|]; [|done]. destruct p1' as [b1'|]; [|done].
  destruct Hc0 as [Hc0 _], Hc1 as [Hc1 _].
  rewrite Validate_buffers_only, Hbufs'. simpl.
  destruct Hcase as [(Hbin & Hcap1 & p2 & rest' & -> & Hres)|
                     (Hbin & Hfix & bw & Hbw & Hcap1)].
  - apply Forall2_cons_inv_l in Hgrown as (p2' & g3 & Hc2 & Hgrown & ->). simpl.
    rewrite Validate_varlen by done.
    destruct (Z.ltb_spec (Buffer_capacity b0') (BytesForBits n)); [lia|].
    destruct (Z.ltb_spec (Buffer_capacity b1')
                (BytesForBits (Int64.mul (Int64.add n 1) 32))); [lia|].
    rewrite bool_decide_eq_false_2; [done|].
    destruct p2 as [d|], p2' as [d'|]; try done.
    destruct Hc2 as [_ Hclass]. simpl in *. rewrite <- Hclass.
    by destruct (Buffer_resizable d).
  - rewrite (Validate_fixed _ _ _ bw) by done.
    destruct (Z.ltb_spec (Buffer_capacity b0') (BytesForBits n)); [lia|].
    destruct (Z.ltb_spec (Buffer_capacity b1') (BytesForBits (Int64.mul n bw)));
      [lia|done].
Qed.

(** What a successful allocation has done. *)
Lemma AllocArrayData_ok_inv (type : DataType) (n : Z) (w w' : World) (ad : ArrayData) :
  AllocArrayData type n w = (Ok ad, w') ->
  exists (b0 d : Buffer) (middle : list (option Buffer)) (data_len : Z)
         (p0 p1 p2 : MemoryPool),
    AllocateBuffer (BytesForBits n) (world_pool w) = (Ok b0, p0) /\
    AllocateResizableBuffer data_len p1 = (Ok d, p2) /\
    ad = ArrayData_Make type n
           (Some b0 :: middle ++
            [Some {| Buffer_size := Buffer_size d; Buffer_capacity := Buffer_capacity d;
                     Buffer_resizable := true |}]) /\
    world_pool w' = p2 /\
    ((is_binary_like (DataType_id type) = true /\
      exists b1,
        AllocateBuffer (BytesForBits (Int64.mul (Int64.add n 1) 32)) p0 = (Ok b1, p1) /\
        middle = [Some b1]) \/
     (is_binary_like (DataType_id type) = false /\ middle = [] /\ p1 = p0 /\
      is_primitive (DataType_id type) || bool_decide (DataType_id type = DECIMAL) = true /\
      exists bw, DataType_bit_width type = Some bw /\
                 data_len = BytesForBits (Int64.mul n bw))).
Proof.
  unfold AllocArrayData. run_prog. rewrite AllocateBuffer_run.
  destruct (AllocateBuffer (BytesForBits n) (world_pool w)) as [[b0| |] p0] eqn:H0;
    simpl; [|done..].
  rewrite planned_data_len.
  destruct (is_binary_like (DataType_id type)) eqn:Hbin.
  - run_prog. rewrite AllocateBuffer_run. simpl.
    destruct (AllocateBuffer _ p0) as [[b1| |] p1] eqn:H1; simpl; [|done..].
    destruct (if is_primitive _ || _ then _ else _) as [data_len| |]; simpl; [|done..].
    rewrite AllocateResizable_run. simpl.
    destruct (AllocateResizableBuffer data_len p1) as [[d| |] p2] eqn:H2; [|done..].
    intros [= <- <-]. exists b0, d, [Some b1], data_len, p0, p1, p2.
    repeat split; [done..|]. left. eauto.
  - run_prog. destruct (is_primitive _ || _) eqn:Hfix; [|done].
    destruct (DataType_bit_width type) as [bw|] eqn:Hbw; simpl; [|done].
    rewrite AllocateResizable_run. simpl.
    destruct (AllocateResizableBuffer _ p0) as [[d| |] p2] eqn:H2; [|done..].
    intros [= <- <-]. exists b0, d, [], (BytesForBits (Int64.mul n bw)), p0, p0, p2.
    repeat split; [done..|]. right. eauto 10.
Qed.

(** What the planner allocates passes the validator, when the pool hands
    out buffers of at least the capacity requested. *)
Lemma AllocArrayData_validates (type : DataType) (n : Z) (name : string)
    (w w' : World) (ad : ArrayData) :
  (forall size p b p', AllocateBuffer size p = (Ok b, p') -> size <= Buffer_capacity b) ->
  (forall size p b p',
      AllocateResizableBuffer size p = (Ok b, p') -> size <= Buffer_capacity b) ->
  AllocArrayData type n w = (Ok ad, w') ->
  ValidateArrayDataCapacity ad {| Field_name := name; Field_type := type |} n = Ok tt.
Proof.
  intros Hplain Hresizable
    (b0 & d & middle & data_len & p0 & p1 & p2 & H0 & H2 & -> & _ & Hcase)%AllocArrayData_ok_inv.
  apply Hplain in H0. apply Hresizable in H2.
  destruct Hcase as [(Hbin & b1 & H1 & ->)|(Hbin & -> & -> & Hfix & bw & Hbw & ->)].
  - apply Hplain in H1. simpl. rewrite Validate_varlen by done.
    destruct (Z.ltb_spec (Buffer_capacity b0) (BytesForBits n)); [lia|].
    destruct (Z.ltb_spec (Buffer_capacity b1)
                (BytesForBits (Int64.mul (Int64.add n 1) 32))); [lia|done].
  - simpl. rewrite (Validate_fixed _ _ _ bw) by done. simpl.
    destruct (Z.ltb_spec (Buffer_capacity b0) (BytesForBits n)); [lia|].
    destruct (Z.ltb_spec (Buffer_capacity d) (BytesForBits (Int64.mul n bw)));
      [lia|done].
Qed.

(** X5: a vector that [AllocArrayData] returns has the type and the length
    asked for, three buffers for a binary-like type and two otherwise,
    none of them null, the last one resizable. *)
Theorem AllocArrayData_shape (type : DataType) (n : Z) (w w' : World) (ad : ArrayData) :
  AllocArrayData type n w = (Ok ad, w') ->
  ArrayData_type ad = type /\
  ArrayData_length ad = n /\
  length (ArrayData_buffers ad) =
    (if is_binary_like (DataType_id type) then 3%nat else 2%nat) /\
  Forall (fun p => p <> None) (ArrayData_buffers ad) /\
  (exists d, last (ArrayData_buffers ad) = Some (Some d) /\ Buffer_resizable d = true).
Proof.
  intros (b0 & d & middle & data_len & p0 & p1 & p2 & _ & _ & -> & _ & Hcase)%AllocArrayData_ok_inv.
  destruct Hcase as [(Hbin & b1 & _ & ->)|(Hbin & -> & _)]; rewrite Hbin; simpl;
    (repeat split; [repeat constructor; done | eauto]).
Qed.

(** X6: for a type that is neither binary-like nor primitive nor decimal
    the planner fails with an invalid-argument status that names the type,
    after it has allocated the bitmap and nothing else. *)
Theorem AllocArrayData_unsupported_type (type : DataType) (n : Z) (w : World)
    (b0 : Buffer) (p0 : MemoryPool) :
  is_binary_like (DataType_id type) = false ->
  is_primitive (DataType_id type) || bool_decide (DataType_id type = DECIMAL) = false ->
  AllocateBuffer (BytesForBits n) (world_pool w) = (Ok b0, p0) ->
  AllocArrayData type n w =
  (Raise Invalid [Str ("Unsupported output data type " +:+ DataType_ToString type)],
   with_pool p0 (logged [CallAllocateBuffer (BytesForBits n)] w)).
Proof.
  intros Hbin Hfix H0. unfold AllocArrayData. run_prog.
  rewrite AllocateBuffer_run, H0. simpl. rewrite Hbin, Hfix. by run_prog.
Qed.

(** X7: an error status of the planner is either the refusal of an
    unsupported type, raised after the bitmap has been allocated, or the
    very status that the pool returned for one request of this run: for
    the bitmap, asked of the pool of the starting state; for the offsets
    of a binary-like type, asked of the pool that the bitmap request
    left; or for the data buffer, asked of the pool that the requests
    before it left.  The final state holds the pool that the failing
    request left and the log of the requests made up to and including
    it. *)
Theorem AllocArrayData_error_origin (type : DataType) (n : Z) (w w' : World)
    (code : StatusCode) (msg : message) :
  AllocArrayData type n w = (Raise code msg, w') ->
  let bitmap_len := BytesForBits n in
  let offsets_len := BytesForBits (Int64.mul (Int64.add n 1) 32) in
  let fixed_width :=
    is_primitive (DataType_id type) || bool_decide (DataType_id type = DECIMAL) in
  (exists (b0 : Buffer) (p0 : MemoryPool),
      code = Invalid /\
      msg = [Str ("Unsupported output data type " +:+ DataType_ToString type)] /\
      is_binary_like (DataType_id type) = false /\
      fixed_width = false /\
      AllocateBuffer bitmap_len (world_pool w) = (Ok b0, p0) /\
      w' = with_pool p0 (logged [CallAllocateBuffer bitmap_len] w)) \/
  (exists p' : MemoryPool,
      AllocateBuffer bitmap_len (world_pool w) = (Raise code msg, p') /\
      w' = with_pool p' (logged [CallAllocateBuffer bitmap_len] w)) \/
  (exists (b0 : Buffer) (p0 p' : MemoryPool),
      is_binary_like (DataType_id type) = true /\
      AllocateBuffer bitmap_len (world_pool w) = (Ok b0, p0) /\
      AllocateBuffer offsets_len p0 = (Raise code msg, p') /\
      w' = with_pool p'
             (logged [CallAllocateBuffer bitmap_len;
                      CallAllocateBuffer offsets_len] w)) \/
  (exists (b0 b1 : Buffer) (p0 p1 p' : MemoryPool) (data_len : Z),
      is_binary_like (DataType_id type) = true /\
      AllocateBuffer bitmap_len (world_pool w) = (Ok b0, p0) /\
      AllocateBuffer offsets_len p0 = (Ok b1, p1) /\
      (if fixed_width
       then exists bw : Z, DataType_bit_width type = Some bw /\
                           data_len = BytesForBits (Int64.mul n bw)
       else data_len = 0) /\
      AllocateResizableBuffer data_len p1 = (Raise code msg, p') /\
      w' = with_pool p'
             (logged [CallAllocateBuffer bitmap_len;
                      CallAllocateBuffer offsets_len;
                      CallAllocateResizableBuffer data_len] w)) \/
  (exists (b0 : Buffer) (p0 p' : MemoryPool) (bw : Z),
      is_binary_like (DataType_id type) = false /\
      fixed_width = true /\
      DataType_bit_width type = Some bw /\
      AllocateBuffer bitmap_len (world_pool w) = (Ok b0, p0) /\
      AllocateResizableBuffer (BytesForBits (Int64.mul n bw)) p0 =
        (Raise code msg, p') /\
      w' = with_pool p'
             (logged [CallAllocateBuffer bitmap_len;
                      CallAllocateResizableBuffer
                        (BytesForBits (Int64.mul n bw))] w)).
Proof.
  cbv zeta. unfold AllocArrayData. run_prog. rewrite AllocateBuffer_run.
  destruct (AllocateBuffer (BytesForBits n) (world_pool w)) as [[b0| |] p0] eqn:H0;
    simpl; [|intros [= <- <- <-]; right; left; eauto|done].
  rewrite planned_data_len.
  destruct (is_binary_like (DataType_id type)) eqn:Hbin.
  - run_prog. rewrite AllocateBuffer_run. simpl.
    destruct (AllocateBuffer _ p0) as [[b1| |] p1] eqn:H1; simpl.
    + destruct (is_primitive _ || _) eqn:Hfix.
      * destruct (DataType_bit_width type) as [bw|] eqn:Hbw; simpl; [|done].
        rewrite AllocateResizable_run. simpl.
        destruct (AllocateResizableBuffer _ p1) as [[d| |] p2] eqn:H2; [done| |done].
        intros [= <- <- <-]. do 3 right. left.
        exists b0, b1, p0, p1, p2, (BytesForBits (Int64.mul n bw)).
        do 3 (split; [done|]). split; [by exists bw|]. split; [done|].
        unfold logged, with_pool; simpl. by rewrite <- !app_assoc.
      * simpl. rewrite AllocateResizable_run. simpl.
        destruct (AllocateResizableBuffer _ p1) as [[d| |] p2] eqn:H2; [done| |done].
        intros [= <- <- <-]. do 3 right. left.
        exists b0, b1, p0, p1, p2, 0.
        do 5 (split; [done|]).
        unfold logged, with_pool; simpl. by rewrite <- !app_assoc.
    + intros [= <- <- <-]. do 2 right. left. exists b0, p0, p1.
      do 3 (split; [done|]).
      unfold logged, with_pool; simpl. by rewrite <- !app_assoc.
    + done.
  - run_prog. destruct (is_primitive _ || _) eqn:Hfix.
    + destruct (DataType_bit_width type) as [bw|] eqn:Hbw; simpl; [|done].
      rewrite AllocateResizable_run. simpl.
      destruct (AllocateResizableBuffer _ p0) as [[d| |] p2] eqn:H2; [done| |done].
      intros [= <- <- <-]. do 4 right. exists b0, p0, p2, bw.
      do 5 (split; [done|]).
      unfold logged, with_pool; simpl. by rewrite <- !app_assoc.
    + intros [= <- <- <-]. left. exists b0, p0. done.
Qed.

End ShapeFurther.

Lemma string_append_assoc (a b c : string) : (a +:+ b) +:+ c = a +:+ (b +:+ c).
Proof.
  induction a as [|x a IH]; [reflexivity|].
  change (String x ((a +:+ b) +:+ c) = String x (a +:+ (b +:+ c))). by rewrite IH.
Qed.

Lemma existsb_map_compose {A B : Type} (f : A -> B) (p : B -> bool) (l : list A) :
  existsb p (map f l) = existsb (fun a => p (f a)) l.
Proof. induction l as [|a l IH]; simpl; [done|]. by rewrite IH. Qed.

Section KeyFurther.
Context {arrow_types : ArrowTypes} {arrow_lib : Arrow} {gandiva_lib : Gandiva}.

(** The key the constructor builds, member by member. *)
Lemma key_new_members schema configuration exprs mode tid :
  ProjectorCacheKey_new schema configuration exprs mode tid =
  let strings := map Expression_ToString exprs in
  let uniqifier := if existsb contains_like strings then to_size_t tid mod 16 else 0 in
  {| key_schema_ := schema; key_configuration_ := configuration; key_mode_ := mode;
     key_expressions_as_strings_ := strings;
     key_hash_code_ :=
       hash_combine_uint32
         (hash_combine_string
            (hash_combine_size_t
               (hash_combine_size_t (fold_left hash_combine_string strings kSeedValue)
                  (Mode_to_size_t mode))
               (Configuration_Hash configuration))
            (Schema_ToString schema))
         uniqifier;
     key_uniqifier_ := uniqifier |}.
Proof.
  unfold ProjectorCacheKey_new.
  rewrite key_loop_strings, key_loop_result, key_loop_uniqifier. simpl.
  by rewrite existsb_map_compose.
Qed.

(** X8: the key depends on the calling thread only through the uniqifier.
    Without an expression that contains [" like("] every thread builds the
    same key; two threads whose id hashes agree modulo 16 build the same
    key; and with such an expression, two threads whose id hashes differ
    modulo 16 build keys that do not compare equal, whatever the rest. *)
Theorem key_depends_on_thread_through_uniqifier schema configuration exprs mode
    (tid1 tid2 : Z) :
  (Forall (fun e => contains_like (Expression_ToString e) = false) exprs ->
   ProjectorCacheKey_new schema configuration exprs mode tid1 =
   ProjectorCacheKey_new schema configuration exprs mode tid2) /\
  (to_size_t tid1 mod 16 = to_size_t tid2 mod 16 ->
   ProjectorCacheKey_new schema configuration exprs mode tid1 =
   ProjectorCacheKey_new schema configuration exprs mode tid2) /\
  (Exists (fun e => contains_like (Expression_ToString e) = true) exprs ->
   to_size_t tid1 mod 16 <> to_size_t tid2 mod 16 ->
   forall schema' configuration' mode',
     ProjectorCacheKey_eq
       (ProjectorCacheKey_new schema configuration exprs mode tid1)
       (ProjectorCacheKey_new schema' configuration' exprs mode' tid2) = false).
Proof.
  repeat split.
  - intros Hnone. rewrite !key_new_members. cbv zeta.
    assert (existsb contains_like (map Expression_ToString exprs) = false) as ->; [|done].
    rewrite existsb_map_compose. apply not_true_is_false.
    intros (e & Hin & He)%existsb_exists.
    rewrite Forall_forall in Hnone. apply list_elem_of_In, Hnone in Hin. congruence.
  - intros Hmod. rewrite !key_new_members. cbv zeta. by rewrite Hmod.
  - intros Hsome Hmod schema' configuration' mode'. apply not_true_is_false.
    intros (_ & _ & _ & _ & Hu)%ProjectorCacheKey_eq_true.
    rewrite !key_new_uniqifier in Hu.
    assert (existsb (fun e => contains_like (Expression_ToString e)) exprs = true) as Hex.
    { apply Exists_exists in Hsome as (e & Hin%list_elem_of_In & He).
      apply existsb_exists. eauto. }
    rewrite Hex in Hu. done.
Qed.

(** X9: the key depends on the expressions only through their printed
    forms: two expression lists that print alike, element by element, give
    the same key (same members, same hash) on the same thread. *)
Theorem key_depends_on_expression_strings schema configuration mode tid
    (exprs1 exprs2 : list Expression) :
  map Expression_ToString exprs1 = map Expression_ToString exprs2 ->
  ProjectorCacheKey_new schema configuration exprs1 mode tid =
  ProjectorCacheKey_new schema configuration exprs2 mode tid.
Proof. intros Hprint. rewrite !key_new_members. cbv zeta. by rewrite Hprint. Qed.

(** *** Printing *)

Lemma ToString_loop_later (ss expr : string) (exprs : list string) :
  ToString_loop false (ss +:+ expr) exprs = ss +:+ String.concat ", " (expr :: exprs).
Proof.
  revert ss expr. induction exprs as [|y exprs IH]; intros ss expr; [done|].
  cbn [ToString_loop]. rewrite IH.
  change (String.concat ", " (expr :: y :: exprs))
    with (expr +:+ ", " +:+ String.concat ", " (y :: exprs)).
  by rewrite !string_append_assoc.
Qed.

(** X10: [ToString] prints the schema, then the expression strings in
    their order, separated by [", "] and enclosed in ["Expressions: ["] and
    ["]"]: the separator is written between two strings and nowhere else. *)
Theorem ProjectorCacheKey_ToString_joins (PrettyPrint : Schema -> string)
    (k : ProjectorCacheKey) :
  ProjectorCacheKey_ToString PrettyPrint k =
  PrettyPrint (key_schema_ k) +:+ "Expressions: [" +:+
  String.concat ", " (key_expressions_as_strings_ k) +:+ "]".
Proof.
  unfold ProjectorCacheKey_ToString.
  destruct (key_expressions_as_strings_ k) as [|expr exprs].
  - cbn [ToString_loop String.concat]. by rewrite !string_append_assoc.
  - cbn [ToString_loop]. rewrite ToString_loop_later. by rewrite !string_append_assoc.
Qed.

End KeyFurther.

Section BuildFurther.
Context {arrow_types : ArrowTypes} {arrow_lib : Arrow} {gandiva_lib : Gandiva}
        {projector_cache : ProjectorCache}.

#[local] Arguments logged : simpl never.

(** The build after a miss when every step succeeds. *)
Lemma build_success (s : Schema) (c : Configuration) (exprs : list Expression)
    (mode : Mode) (elapsed : Z) (cache_key : ProjectorCacheKey) (w : World)
    (g g' : LLVMGenerator) :
  LLVMGenerator_Make c = Ok g ->
  Forall (fun e => ExprValidator_Validate g s e = Ok tt) exprs ->
  LLVMGenerator_Build g exprs mode = Ok g' ->
  (llvm_gen ← lift (LLVMGenerator_Make c);
   validate_each llvm_gen s exprs;;
   log_call CallBuild;;
   llvm_gen ← lift (LLVMGenerator_Build llvm_gen exprs mode);
   projector ← new_Projector llvm_gen s (map Expression_result exprs) c;
   cache_PutModule cache_key {| vco_module := projector; vco_cost := elapsed |};;
   mret projector) w =
  let p := {| Projector_address := world_next_address w;
              Projector_llvm_generator_ := g'; Projector_schema_ := s;
              Projector_output_fields_ := map Expression_result exprs;
              Projector_configuration_ := c |} in
  (Ok p,
   {| world_cache :=
        Cache_PutModule cache_key {| vco_module := p; vco_cost := elapsed |}
          (world_cache w);
      world_next_address := S (world_next_address w);
      world_pool := world_pool w;
      world_log := world_log w ++ map CallValidate exprs ++
                   [CallBuild; CallNewProjector; CallPutModule] |}).
Proof.
  intros Hg Hvalid Hb. run_prog. rewrite Hg.
  rewrite validate_each_all_valid by done.
  unfold log_call, new_Projector, cache_PutModule, log_call. run_prog. rewrite Hb.
  unfold logged, with_cache. simpl. by rewrite <- !app_assoc.
Qed.

(** X11: a build that misses the cache and whose steps all succeed returns
    a new projector that carries the compiled generator, the schema, the
    result field of every expression in the order of the expressions, and
    the configuration; the projector is inserted under the key of the
    lookup together with the elapsed time; and the collaborators have been
    called in the order key, lookup, generator, one validation per
    expression, build, object creation, insertion. *)
Theorem Make_builds_on_miss (s : Schema) (c : Configuration) (exprs : list Expression)
    (mode : Mode) (tid elapsed : Z) (w : World) (cache' : Cache)
    (g g' : LLVMGenerator) :
  exprs <> [] ->
  Cache_GetModule (ProjectorCacheKey_new s c exprs mode tid) (world_cache w) =
    (None, cache') ->
  LLVMGenerator_Make c = Ok g ->
  Forall (fun e => ExprValidator_Validate g s e = Ok tt) exprs ->
  LLVMGenerator_Build g exprs mode = Ok g' ->
  Make (Some s) exprs mode (Some c) tid elapsed w =
  (Ok {| Projector_address := world_next_address w;
         Projector_llvm_generator_ := g'; Projector_schema_ := s;
         Projector_output_fields_ := map Expression_result exprs;
         Projector_configuration_ := c |},
   {| world_cache :=
        Cache_PutModule (ProjectorCacheKey_new s c exprs mode tid)
          {| vco_module :=
               {| Projector_address := world_next_address w;
                  Projector_llvm_generator_ := g'; Projector_schema_ := s;
                  Projector_output_fields_ := map Expression_result exprs;
                  Projector_configuration_ := c |};
             vco_cost := elapsed |} cache';
      world_next_address := S (world_next_address w);
      world_pool := world_pool w;
      world_log := world_log w ++
                   [CallKeyNew; CallGetModule; CallGeneratorMake] ++
                   map CallValidate exprs ++
                   [CallBuild; CallNewProjector; CallPutModule] |}).
Proof.
  intros Hne Hmiss Hg Hvalid Hb. rewrite Make_checked by done. cbv zeta.
  rewrite Hmiss. rewrite (build_success s c exprs mode elapsed _ _ g g') by done.
  cbv zeta. unfold logged, with_cache. simpl. by rewrite <- !app_assoc.
Qed.

(** X12: whatever its outcome, [Make] leaves the memory pool alone, only
    adds to the log, and creates at most one object: the object counter
    moves, by one, only when [Make] succeeds with a projector created at
    the old value of the counter. *)
Theorem Make_frame (schema : option Schema) (exprs : list Expression) (mode : Mode)
    (configuration : option Configuration) (tid elapsed : Z) (w w' : World)
    (r : res Projector) :
  Make schema exprs mode configuration tid elapsed w = (r, w') ->
  world_pool w' = world_pool w /\
  (exists calls, world_log w' = world_log w ++ calls) /\
  (world_next_address w' = world_next_address w \/
   world_next_address w' = S (world_next_address w) /\
   exists p, r = Ok p /\ Projector_address p = world_next_address w).
Proof.
  assert (Hsame : forall r0, (r0, w) = (r, w') ->
            world_pool w' = world_pool w /\
            (exists calls, world_log w' = world_log w ++ calls) /\
            (world_next_address w' = world_next_address w \/
             world_next_address w' = S (world_next_address w) /\
             exists p, r = Ok p /\ Projector_address p = world_next_address w)).
  { intros r0 [= _ <-]. repeat split; [|by left]. exists []. by rewrite app_nil_r. }
  destruct schema as [s|]; [|apply Hsame].
  destruct exprs as [|e exprs]; [apply Hsame|].
  destruct configuration as [c|]; [|apply Hsame].
  rewrite Make_checked by done. cbv zeta.
  destruct (Cache_GetModule _ _) as [[p|] cache'] eqn:Hlookup.
  - intros [= <- <-]. repeat split; [|by left]. by eexists.
  - intros Hbuild. pose proof Hbuild as Hcopy.
    apply build_outcome in Hcopy
      as [(calls & -> & _ & _)|(g & g' & p & Hg & Hvalid & Hb & -> & _ & _)].
    + repeat split; [|by left].
      exists ([CallKeyNew; CallGetModule; CallGeneratorMake] ++ calls).
      unfold logged, with_cache. simpl. by rewrite <- !app_assoc.
    + rewrite (build_success _ _ _ _ _ _ _ g g') in Hbuild by done.
      cbv zeta in Hbuild. injection Hbuild as <- <-. simpl.
      repeat split; [|right; split; [done|by eexists]].
      eexists. unfold logged. simpl. by rewrite <- !app_assoc.
Qed.

(** X13: a projector that [Make] returns after a miss is bound to the
    arguments of that call: its schema and configuration are the ones
    passed, and it has one output field per expression, the result field
    of each expression in order. *)
Theorem Make_binds_arguments (s : Schema) (c : Configuration)
    (exprs : list Expression) (mode : Mode) (tid elapsed : Z) (w w' : World)
    (cache' : Cache) (p : Projector) :
  Cache_GetModule (ProjectorCacheKey_new s c exprs mode tid) (world_cache w) =
    (None, cache') ->
  Make (Some s) exprs mode (Some c) tid elapsed w = (Ok p, w') ->
  Projector_schema_ p = s /\
  Projector_configuration_ p = c /\
  Projector_output_fields_ p = map Expression_result exprs /\
  length (Projector_output_fields_ p) = length exprs.
Proof.
  intros Hmiss Hmake.
  assert (Hne : exprs <> []).
  { intros ->. unfold Make in Hmake. run_prog. discriminate. }
  rewrite Make_checked in Hmake by done. cbv zeta in Hmake. rewrite Hmiss in Hmake.
  pose proof Hmake as Hcopy.
  apply build_outcome in Hcopy
    as [(calls & _ & _ & Hfail)|(g & g' & p' & Hg & Hvalid & Hb & _)];
    [by destruct (Hfail p)|].
  rewrite (build_success _ _ _ _ _ _ _ g g') in Hmake by done.
  cbv zeta in Hmake. injection Hmake as <- _. simpl.
  repeat split. by rewrite length_map.
Qed.

End BuildFurther.

Section EvaluateFurther.
Context {arrow_types : ArrowTypes} {arrow_lib : Arrow} {gandiva_lib : Gandiva}
        {projector_cache : ProjectorCache}.

#[local] Arguments logged : simpl never.

Lemma ValidateEvaluateArgsCommon_accepts (this : Projector) (batch : RecordBatch) :
  Schema_Equals (RecordBatch_schema batch) (Projector_schema_ this)
    check_metadata_default = true ->
  RecordBatch_num_rows batch <> 0 ->
  ValidateEvaluateArgsCommon this batch = Ok tt.
Proof.
  intros Hschema Hrows. unfold ValidateEvaluateArgsCommon. run_res. rewrite Hschema.
  simpl. by destruct (Z.eqb_spec (RecordBatch_num_rows batch) 0).
Qed.

(** The loop over the output vectors skips a prefix it accepts. *)
Lemma validate_output_data_vecs_prefix (this : Projector) (batch : RecordBatch)
    (selection_vector : option SelectionVector)
    (pre rest : list (option ArrayData)) (idx : nat) :
  (forall i p, pre !! i = Some p ->
               output_accepted this (effective_num_rows batch selection_vector)
                 (idx + i) p) ->
  validate_output_data_vecs this batch selection_vector (pre ++ rest) idx =
  validate_output_data_vecs this batch selection_vector rest (idx + length pre).
Proof.
  revert idx. induction pre as [|x pre IH]; intros idx Hpre; simpl.
  - by rewrite Nat.add_0_r.
  - destruct (Hpre 0%nat x eq_refl) as (data & field & -> & Hfield & Hvalid).
    rewrite Nat.add_0_r in Hfield. run_res. rewrite Hfield. simpl. rewrite Hvalid.
    simpl. rewrite IH.
    + f_equal. lia.
    + intros i p Hi. replace (S idx + i)%nat with (idx + S i)%nat by lia.
      by apply Hpre.
Qed.

(** X14: when the number of output vectors differs from the number of
    output fields, the first [Evaluate] fails with an invalid-argument
    status that gives both numbers, and [Execute] is not called. *)
Theorem Evaluate_wrong_number_of_outputs (this : Projector) (batch : RecordBatch)
    (selection_vector : option SelectionVector)
    (output_data_vecs : list (option ArrayData)) (w : World) :
  Schema_Equals (RecordBatch_schema batch) (Projector_schema_ this)
    check_metadata_default = true ->
  RecordBatch_num_rows batch <> 0 ->
  length output_data_vecs <> length (Projector_output_fields_ this) ->
  Evaluate this batch selection_vector output_data_vecs w =
  (Raise Invalid [Str "number of buffers for output_data_vecs is ";
                  Num (Z.of_nat (length output_data_vecs));
                  Str ", expected ";
                  Num (Z.of_nat (length (Projector_output_fields_ this)))], w).
Proof.
  intros Hschema Hrows Hlen. unfold Evaluate. run_prog.
  rewrite ValidateEvaluateArgsCommon_accepts by done. simpl.
  by rewrite bool_decide_eq_true_2.
Qed.

(** X15: the output vectors are validated in order, and the first one
    that is refused decides: after a prefix of accepted vectors, a null
    vector makes [Evaluate] fail with an invalid-argument status that
    names the output field at that index, and a vector on which
    [ValidateArrayDataCapacity] fails makes it fail in the same way, with
    the same status or the same fault; in each case [Execute] is not
    called. *)
Theorem Evaluate_first_refused_output (this : Projector) (batch : RecordBatch)
    (selection_vector : option SelectionVector)
    (pre post : list (option ArrayData)) (field : Field) (w : World) :
  Schema_Equals (RecordBatch_schema batch) (Projector_schema_ this)
    check_metadata_default = true ->
  RecordBatch_num_rows batch <> 0 ->
  S (length pre + length post) = length (Projector_output_fields_ this) ->
  (forall i p, pre !! i = Some p ->
               output_accepted this (effective_num_rows batch selection_vector) i p) ->
  Projector_output_fields_ this !! length pre = Some field ->
  Evaluate this batch selection_vector (pre ++ None :: post) w =
    (Raise Invalid [Str "array for output field "; Str (Field_name field);
                    Str "is null."], w) /\
  (forall data code msg,
      ValidateArrayDataCapacity data field
        (effective_num_rows batch selection_vector) = Raise code msg ->
      Evaluate this batch selection_vector (pre ++ Some data :: post) w =
        (Raise code msg, w)) /\
  (forall data f,
      ValidateArrayDataCapacity data field
        (effective_num_rows batch selection_vector) = Faulted f ->
      Evaluate this batch selection_vector (pre ++ Some data :: post) w =
        (Faulted f, w)).
Proof.
  intros Hschema Hrows Hlen Hpre Hfield.
  assert (Hcount : forall x, bool_decide (length (pre ++ x :: post) <>
                               length (Projector_output_fields_ this)) = false).
  { intros x. apply bool_decide_eq_false_2. rewrite length_app. simpl. lia. }
  split; [|split; [intros data code msg Hrefused|intros data f Hrefused]];
    unfold Evaluate; run_prog;
    rewrite ValidateEvaluateArgsCommon_accepts by done; simpl;
    rewrite Hcount; simpl;
    rewrite validate_output_data_vecs_prefix by done; simpl; run_res;
    rewrite Hfield; simpl; [done|by rewrite Hrefused..].
Qed.

(** The loop accepts a list of accepted vectors. *)
Lemma validate_output_data_vecs_all (this : Projector) (batch : RecordBatch)
    (selection_vector : option SelectionVector)
    (output_data_vecs : list (option ArrayData)) :
  (forall i p, output_data_vecs !! i = Some p ->
               output_accepted this (effective_num_rows batch selection_vector) i p) ->
  validate_output_data_vecs this batch selection_vector output_data_vecs 0 = Ok tt.
Proof.
  intros Hall.
  rewrite <- (app_nil_r output_data_vecs).
  by rewrite validate_output_data_vecs_prefix.
Qed.

(** The loop succeeds on accepted vectors only. *)
Lemma validate_output_data_vecs_ok_inv (this : Projector) (batch : RecordBatch)
    (selection_vector : option SelectionVector)
    (output_data_vecs : list (option ArrayData)) (idx : nat) :
  validate_output_data_vecs this batch selection_vector output_data_vecs idx = Ok tt ->
  forall i p, output_data_vecs !! i = Some p ->
              output_accepted this (effective_num_rows batch selection_vector)
                (idx + i) p.
Proof.
  revert idx. induction output_data_vecs as [|x vecs IH]; intros idx; [done|].
  simpl. destruct x as [data|]; run_res.
  - destruct (Projector_output_fields_ this !! idx) as [field|] eqn:Hfield;
      simpl; [|done].
    destruct (ValidateArrayDataCapacity data field _) as [[]| |] eqn:Hvalid;
      simpl; [|done..].
    intros Hok [|i] p Hi; simpl in Hi.
    + injection Hi as <-. rewrite Nat.add_0_r. by exists data, field.
    + replace (idx + S i)%nat with (S idx + i)%nat by lia. by eapply IH.
  - by destruct (Projector_output_fields_ this !! idx).
Qed.

(** X16: the first [Evaluate] calls [Execute] exactly when the batch and
    every output vector pass validation; it then hands over the output
    vectors as they are and returns what [Execute] returns, a failure
    included.  Otherwise it changes nothing; in no case does it touch the
    cache, the pool or the object counter. *)
Theorem Evaluate_executes_after_validation (this : Projector) (batch : RecordBatch)
    (selection_vector : option SelectionVector)
    (output_data_vecs : list (option ArrayData)) (w w' : World)
    (r : res (list (option ArrayData))) :
  Evaluate this batch selection_vector output_data_vecs w = (r, w') ->
  (w' = w /\ (forall out, r <> Ok out)) \/
  (w' = logged [CallExecute] w /\
   r = LLVMGenerator_Execute (Projector_llvm_generator_ this) batch selection_vector
         output_data_vecs /\
   ValidateEvaluateArgsCommon this batch = Ok tt /\
   length output_data_vecs = length (Projector_output_fields_ this) /\
   forall i p, output_data_vecs !! i = Some p ->
               output_accepted this (effective_num_rows batch selection_vector) i p).
Proof.
  unfold Evaluate, generator_Execute, log_call. run_prog.
  destruct (ValidateEvaluateArgsCommon this batch) as [[]| |] eqn:Hargs;
    [|intros [= <- <-]; left; split; [done|discriminate]..].
  simpl. case_bool_decide as Hlen; simpl;
    [intros [= <- <-]; left; split; [done|discriminate]|].
  destruct (validate_output_data_vecs this batch selection_vector output_data_vecs 0)
    as [[]| |] eqn:Hvecs;
    [|intros [= <- <-]; left; split; [done|discriminate]..].
  simpl. intros Hexec. right.
  assert (Hr : r = LLVMGenerator_Execute (Projector_llvm_generator_ this) batch
                     selection_vector output_data_vecs /\ w' = logged [CallExecute] w).
  { by destruct (LLVMGenerator_Execute _ _ _ _); injection Hexec as <- <-. }
  destruct Hr as [-> ->]. repeat split; [done|].
  intros i p Hi.
  exact (validate_output_data_vecs_ok_inv this batch selection_vector output_data_vecs
           0%nat Hvecs i p Hi).
Qed.

End EvaluateFurther.

Section AllocatingEvaluate.
Context {arrow_types : ArrowTypes} {arrow_lib : Arrow} {gandiva_lib : Gandiva}
        {projector_cache : ProjectorCache}.

#[local] Arguments logged : simpl never.

(** X17: when the batch passes the common checks, the number of output
    vectors is the number of output fields and every vector is accepted,
    the first [Evaluate] calls [Execute] once on the vectors as given and
    returns its result, whether a success or a failure. *)
Theorem Evaluate_executes_accepted_outputs (this : Projector) (batch : RecordBatch)
    (selection_vector : option SelectionVector)
    (output_data_vecs : list (option ArrayData)) (w : World) :
  Schema_Equals (RecordBatch_schema batch) (Projector_schema_ this)
    check_metadata_default = true ->
  RecordBatch_num_rows batch <> 0 ->
  length output_data_vecs = length (Projector_output_fields_ this) ->
  (forall i p, output_data_vecs !! i = Some p ->
               output_accepted this (effective_num_rows batch selection_vector) i p) ->
  Evaluate this batch selection_vector output_data_vecs w =
  (LLVMGenerator_Execute (Projector_llvm_generator_ this) batch selection_vector
     output_data_vecs,
   logged [CallExecute] w).
Proof.
  intros Hschema Hrows Hlen Hall. unfold Evaluate, generator_Execute, log_call.
  run_prog. rewrite ValidateEvaluateArgsCommon_accepts by done. simpl.
  rewrite bool_decide_eq_false_2 by (by intros ?). simpl.
  rewrite validate_output_data_vecs_all by done. simpl.
  by destruct (LLVMGenerator_Execute _ _ _ _).
Qed.

(** X18: the allocating [Evaluate] checks the batch first, then the output
    pointer, then the pool: with a batch that passes, a null output
    pointer is reported even when the pool is null too, and a null pool is
    reported when the output pointer is not null; nothing has been
    allocated or executed then. *)
Theorem Evaluate_alloc_null_arguments (this : Projector) (batch : RecordBatch)
    (selection_vector : option SelectionVector) (w : World) :
  Schema_Equals (RecordBatch_schema batch) (Projector_schema_ this)
    check_metadata_default = true ->
  RecordBatch_num_rows batch <> 0 ->
  (forall pool,
      Evaluate_alloc this batch selection_vector pool None w =
      (Raise Invalid [Str "Output must be non-null."], w)) /\
  (forall output,
      Evaluate_alloc this batch selection_vector None (Some output) w =
      (Raise Invalid [Str "Memory pool must be non-null."], w)).
Proof.
  intros Hschema Hrows.
  split; intros ?; unfold Evaluate_alloc; run_prog;
    by rewrite ValidateEvaluateArgsCommon_accepts.
Qed.

(** *** The allocation loop *)

Lemma evaluation_frame_refl (w : World) : evaluation_frame w w.
Proof. repeat split. exists []. by rewrite app_nil_r. Qed.

Lemma evaluation_frame_trans (w1 w2 w3 : World) :
  evaluation_frame w1 w2 -> evaluation_frame w2 w3 -> evaluation_frame w1 w3.
Proof.
  intros (Hc & Ha & l & Hl & Hcalls) (Hc' & Ha' & l' & Hl' & Hcalls').
  repeat split; [congruence..|]. exists (l ++ l').
  rewrite Hl', Hl, <- app_assoc, forallb_app, Hcalls, Hcalls'. done.
Qed.

Lemma evaluation_frame_step (w : World) (p : MemoryPool) (e : Event) :
  is_evaluation_call e = true -> evaluation_frame w (with_pool p (logged [e] w)).
Proof. intros He. repeat split. exists [e]. simpl. by rewrite He. Qed.

Lemma pool_AllocateBuffer_frame (size : Z) (w w' : World) (r : res Buffer) :
  pool_AllocateBuffer size w = (r, w') -> evaluation_frame w w'.
Proof. rewrite AllocateBuffer_run. intros [= _ <-]. by apply evaluation_frame_step. Qed.

Lemma pool_AllocateResizableBuffer_frame (size : Z) (w w' : World) (r : res Buffer) :
  pool_AllocateResizableBuffer size w = (r, w') -> evaluation_frame w w'.
Proof.
  rewrite AllocateResizable_run.
  destruct (AllocateResizableBuffer _ _) as [[d| |] p]; intros [= _ <-];
    by apply evaluation_frame_step.
Qed.

Lemma AllocArrayData_frame (type : DataType) (n : Z) (w w' : World)
    (r : res ArrayData) :
  AllocArrayData type n w = (r, w') -> evaluation_frame w w'.
Proof.
  unfold AllocArrayData. run_prog.
  destruct (pool_AllocateBuffer (BytesForBits n) w) as [r0 w0] eqn:H0.
  apply pool_AllocateBuffer_frame in H0.
  destruct r0 as [b0| |]; [|by intros [= _ <-]..].
  rewrite planned_data_len.
  destruct (is_binary_like (DataType_id type)).
  - run_prog.
    destruct (pool_AllocateBuffer _ w0) as [r1 w1] eqn:H1.
    apply pool_AllocateBuffer_frame in H1.
    pose proof (evaluation_frame_trans _ _ _ H0 H1) as H01.
    destruct r1 as [b1| |]; [|by intros [= _ <-]..].
    destruct (if is_primitive _ || _ then _ else _) as [data_len| |];
      simpl; [|by intros [= _ <-]..].
    destruct (pool_AllocateResizableBuffer data_len w1) as [r2 w2] eqn:H2.
    apply pool_AllocateResizableBuffer_frame in H2.
    pose proof (evaluation_frame_trans _ _ _ H01 H2).
    by destruct r2; intros [= _ <-].
  - run_prog.
    destruct (if is_primitive _ || _ then _ else _) as [data_len| |];
      simpl; [|by intros [= _ <-]..].
    destruct (pool_AllocateResizableBuffer data_len w0) as [r2 w2] eqn:H2.
    apply pool_AllocateResizableBuffer_frame in H2.
    pose proof (evaluation_frame_trans _ _ _ H0 H2).
    by destruct r2; intros [= _ <-].
Qed.

Lemma alloc_output_data_vecs_frame (fields : list Field) (n : Z) (w w' : World)
    (r : res (list (option ArrayData))) :
  alloc_output_data_vecs fields n w = (r, w') -> evaluation_frame w w'.
Proof.
  revert w w' r. induction fields as [|field fields IH]; intros w w' r; simpl.
  - intros [= _ <-]. apply evaluation_frame_refl.
  - run_prog.
    destruct (AllocArrayData (Field_type field) n w) as [r0 w0] eqn:H0.
    apply AllocArrayData_frame in H0.
    destruct r0 as [ad| |]; [|by intros [= _ <-]..].
    destruct (alloc_output_data_vecs fields n w0) as [r1 w1] eqn:H1.
    apply IH in H1. pose proof (evaluation_frame_trans _ _ _ H0 H1).
    by destruct r1; intros [= _ <-].
Qed.

(** X19: the allocation loop of the second [Evaluate] returns one vector
    per output field, in the order of the fields, each of the type of its
    field and of the length asked for; and when the pool hands out buffers
    of at least the capacity requested, each of them is a vector that the
    validation of the first [Evaluate] accepts for that field. *)
Theorem alloc_output_data_vecs_accepted (fields : list Field) (n : Z) (w w' : World)
    (vecs : list (option ArrayData)) :
  (forall size p b p', AllocateBuffer size p = (Ok b, p') -> size <= Buffer_capacity b) ->
  (forall size p b p',
      AllocateResizableBuffer size p = (Ok b, p') -> size <= Buffer_capacity b) ->
  alloc_output_data_vecs fields n w = (Ok vecs, w') ->
  Forall2 (fun field p =>
             exists data,
               p = Some data /\
               ArrayData_type data = Field_type field /\
               ArrayData_length data = n /\
               ValidateArrayDataCapacity data field n = Ok tt)
    fields vecs.
Proof.
  intros Hplain Hresizable. revert w w' vecs.
  induction fields as [|field fields IH]; intros w w' vecs; simpl.
  - intros [= <- _]. constructor.
  - run_prog.
    destruct (AllocArrayData (Field_type field) n w) as [[ad| |] w0] eqn:H0; [|done..].
    destruct (alloc_output_data_vecs fields n w0) as [[rest| |] w1] eqn:H1; [|done..].
    intros [= <- _]. constructor; [|by eapply IH].
    exists ad. split; [done|].
    pose proof (AllocArrayData_validates _ _ (Field_name field) _ _ _
                  Hplain Hresizable H0) as Hvalid.
    apply AllocArrayData_ok_inv in H0
      as (b0 & d & middle & data_len & p0 & p1 & p2 & _ & _ & -> & _).
    repeat split. by destruct field.
Qed.

(** X20: once the arguments of the allocating [Evaluate] have passed, it
    allocates the output vectors and, only if every allocation succeeded,
    calls [Execute] once on them.  The arrays it returns wrap what
    [Execute] left, in order, and replace whatever the output vector held
    before; a failure of an allocation or of [Execute] is returned as it
    is. *)
Theorem Evaluate_alloc_runs (this : Projector) (batch : RecordBatch)
    (selection_vector : option SelectionVector) (old : list Array) (w : World) :
  Schema_Equals (RecordBatch_schema batch) (Projector_schema_ this)
    check_metadata_default = true ->
  RecordBatch_num_rows batch <> 0 ->
  Evaluate_alloc this batch selection_vector (Some the_pool) (Some old) w =
  match alloc_output_data_vecs (Projector_output_fields_ this)
          (effective_num_rows batch selection_vector) w with
  | (Ok vecs, w1) =>
      (match LLVMGenerator_Execute (Projector_llvm_generator_ this) batch
               selection_vector vecs with
       | Ok outs => Ok (map MakeArray outs)
       | Raise code msg => Raise code msg
       | Faulted f => Faulted f
       end, logged [CallExecute] w1)
  | (Raise code msg, w1) => (Raise code msg, w1)
  | (Faulted f, w1) => (Faulted f, w1)
  end.
Proof.
  intros Hschema Hrows. unfold Evaluate_alloc, generator_Execute, log_call. run_prog.
  rewrite ValidateEvaluateArgsCommon_accepts by done. simpl.
  destruct (alloc_output_data_vecs _ _ w) as [[vecs| |] w1]; [|done..].
  by destruct (LLVMGenerator_Execute _ _ _ _).
Qed.

(** X21: whatever its outcome, the allocating [Evaluate] leaves the cache
    and the object counter alone, and the only calls it makes are buffer
    allocations and [Execute]. *)
Theorem Evaluate_alloc_frame (this : Projector) (batch : RecordBatch)
    (selection_vector : option SelectionVector) (pool : option MemoryPoolRef)
    (output : option (list Array)) (w w' : World) (r : res (list Array)) :
  Evaluate_alloc this batch selection_vector pool output w = (r, w') ->
  evaluation_frame w w'.
Proof.
  unfold Evaluate_alloc, generator_Execute, log_call. run_prog.
  destruct (ValidateEvaluateArgsCommon this batch) as [[]| |];
    [|intros [= _ <-]; apply evaluation_frame_refl..].
  simpl. destruct output as [old|]; simpl;
    [|intros [= _ <-]; apply evaluation_frame_refl].
  destruct pool as [[]|]; simpl; [|intros [= _ <-]; apply evaluation_frame_refl].
  destruct (alloc_output_data_vecs _ _ w) as [r0 w0] eqn:Halloc.
  apply alloc_output_data_vecs_frame in Halloc.
  destruct r0 as [vecs| |]; [|by intros [= _ <-]..].
  assert (Hexec : evaluation_frame w (logged [CallExecute] w0)).
  { eapply evaluation_frame_trans; [done|]. repeat split. by exists [CallExecute]. }
  by destruct (LLVMGenerator_Execute _ _ _ _); intros [= _ <-].
Qed.

End AllocatingEvaluate.

Section BuildCalls.
Context {arrow_types : ArrowTypes} {arrow_lib : Arrow} {gandiva_lib : Gandiva}
        {projector_cache : ProjectorCache}.

#[local] Arguments logged : simpl never.

(** The validation loop logs the validation of a prefix of the
    expressions, of all of them when it succeeds. *)
Lemma validate_each_prefix (g : LLVMGenerator) (s : Schema)
    (exprs : list Expression) (w w' : World) (r : res unit) :
  validate_each g s exprs w = (r, w') ->
  exists validated rest : list Expression,
    exprs = validated ++ rest /\
    w' = logged (map CallValidate validated) w /\
    (r = Ok tt -> rest = []).
Proof.
  revert w. induction exprs as [|e exprs IH]; intros w; simpl.
  - intros [= <- <-]. exists [], []. simpl. by rewrite logged_nil.
  - run_prog. destruct (ExprValidator_Validate g s e) as [[]| |] eqn:He.
    + intros Hrest. destruct (IH _ Hrest) as (validated & rest & -> & -> & Hok).
      exists (e :: validated), rest. simpl. by rewrite logged_logged.
    + intros [= <- <-]. exists [e], exprs. done.
    + intros [= <- <-]. exists [e], exprs. done.
Qed.

(** X22: the calls one [Make] adds to the log are, in this order: nothing
    when an argument is missing; else the construction of the key and one
    lookup; after a miss the construction of the generator, the
    validation of the expressions in their order up to the first that
    fails, the build once all are valid, and the creation and the
    insertion of the projector once the build succeeded.  So the cache is
    read at most once and written at most once, after the read, and
    [Make] succeeds after a miss exactly when it has inserted. *)
Theorem Make_call_sequence (schema : option Schema) (exprs : list Expression)
    (mode : Mode) (configuration : option Configuration) (tid elapsed : Z)
    (w w' : World) (r : res Projector) :
  Make schema exprs mode configuration tid elapsed w = (r, w') ->
  (w' = w /\ exists msg, r = Raise Invalid msg) \/
  (world_log w' = world_log w ++ [CallKeyNew; CallGetModule] /\ exists p, r = Ok p) \/
  (exists (validated rest : list Expression) (tail : list Event),
      exprs = validated ++ rest /\
      world_log w' = world_log w ++ [CallKeyNew; CallGetModule; CallGeneratorMake] ++
                     map CallValidate validated ++ tail /\
      (tail = [] /\ (forall p, r <> Ok p) \/
       tail = [CallBuild] /\ rest = [] /\ (forall p, r <> Ok p) \/
       tail = [CallBuild; CallNewProjector; CallPutModule] /\ rest = [] /\
       exists p, r = Ok p)).
Proof.
  destruct schema as [s|]; [|intros [= <- <-]; left; eauto].
  destruct exprs as [|e0 exprs0]; [intros [= <- <-]; left; eauto|].
  destruct configuration as [c|]; [|intros [= <- <-]; left; eauto].
  assert (Hne : e0 :: exprs0 <> []) by done.
  generalize dependent (e0 :: exprs0). intros exprs Hne.
  rewrite Make_checked by done. cbv zeta.
  destruct (Cache_GetModule _ _) as [[p|] cache'].
  { intros [= <- <-]. right. left. split; [done|eauto]. }
  intros Hbuild. right. right. revert Hbuild. run_prog.
  destruct (LLVMGenerator_Make c) as [g| |].
  2,3: intros [= <- <-]; exists [], exprs, []; split; [done|]; split;
       [unfold logged, with_cache; simpl; by rewrite <- app_assoc|];
       left; split; [done|discriminate].
  match goal with
  | |- context [validate_each g s exprs ?w0] =>
      destruct (validate_each g s exprs w0) as [rv wv] eqn:Hv
  end.
  apply validate_each_prefix in Hv as (validated & rest & Hsplit & -> & Hall).
  destruct rv as [[]| |].
  2,3: intros [= <- <-]; exists validated, rest, []; split; [done|]; split;
       [unfold logged, with_cache; simpl; by rewrite <- !app_assoc, app_nil_r|];
       left; split; [done|discriminate].
  specialize (Hall eq_refl). subst rest.
  unfold log_call. run_prog.
  destruct (LLVMGenerator_Build g exprs mode) as [g'| |].
  2,3: intros [= <- <-]; exists validated, [], [CallBuild]; split; [done|]; split;
       [unfold logged, with_cache; simpl; by rewrite <- !app_assoc|];
       right; left; repeat split; discriminate.
  unfold new_Projector, cache_PutModule, log_call. run_prog.
  intros [= <- <-]. exists validated, [], [CallBuild; CallNewProjector; CallPutModule].
  split; [done|]. split.
  - unfold logged, with_cache. simpl. by rewrite <- !app_assoc.
  - right. right. repeat split. eauto.
Qed.

End BuildCalls.

(** ** The further properties on the concrete instance *)

Section OnSampleFurther.
Import Sample.
#[local] Existing Instances types arrow gandiva cache.

Lemma sample_pool_capacity (size : Z) (p : MemoryPool) (b : Buffer) (p' : MemoryPool) :
  AllocateBuffer size p = (Ok b, p') -> size <= Buffer_capacity b.
Proof.
  intros [= <- _]. simpl.
  pose proof (Z.div_mod (size + 63) 64 ltac:(lia)).
  pose proof (Z.mod_pos_bound (size + 63) 64 ltac:(lia)). lia.
Qed.

Lemma sample_pool_resizable_capacity (size : Z) (p : MemoryPool) (b : Buffer)
    (p' : MemoryPool) :
  AllocateResizableBuffer size p = (Ok b, p') -> size <= Buffer_capacity b.
Proof.
  intros [= <- _]. simpl.
  pose proof (Z.div_mod (size + 63) 64 ltac:(lia)).
  pose proof (Z.mod_pos_bound (size + 63) 64 ltac:(lia)). lia.
Qed.

Lemma sample_first_output_accepted (i : nat) (p : option ArrayData) :
  [Some int32_vector] !! i = Some p ->
  output_accepted two_output_projector
    (effective_num_rows ten_rows None) i p.
Proof.
  destruct i as [|i]; [|done]. intros [= <-].
  exists int32_vector, int32_field. repeat split.
Qed.

Lemma Validate_too_few_buffers_witness :
  ValidateArrayDataCapacity one_buffer_vector list_field 10 =
  Raise Invalid [Str "ArrayData must have at least 2 buffers"].
Proof. apply Validate_too_few_buffers. simpl. lia. Defined.

Lemma Validate_unsupported_type_witness :
  ValidateArrayDataCapacity list_vector list_field 10 <> Ok tt /\
  ValidateArrayDataCapacity list_vector list_field 10 =
  Raise Invalid [Str "Unsupported output data type list<item: int32>"].
Proof.
  destruct (Validate_unsupported_type list_vector list_field 10 eq_refl eq_refl)
    as [Hnever Hnamed].
  split; [exact Hnever|].
  apply (Hnamed (tight_buffer 2) (Some (tight_buffer 40)) []); [reflexivity|].
  vm_compute. discriminate.
Defined.

Lemma Validate_without_fault_witness :
  ValidateArrayDataCapacity short_int32_vector int32_field 10 = Ok tt \/
  is_invalid (ValidateArrayDataCapacity short_int32_vector int32_field 10).
Proof.
  apply (Validate_without_fault short_int32_vector int32_field 10
           (tight_buffer 2) (tight_buffer 39) []); [reflexivity|discriminate|].
  intros _ _. discriminate.
Defined.

Lemma Validate_larger_buffers_witness :
  ValidateArrayDataCapacity wide_int32_vector int32_field 10 = Ok tt.
Proof.
  apply (Validate_larger_buffers int32_vector wide_int32_vector int32_field 10
           [None] [Some (fresh_buffer 2); Some (fresh_buffer 40)]);
    [reflexivity| |reflexivity].
  repeat constructor; vm_compute; discriminate.
Defined.

Lemma AllocArrayData_shape_witness :
  length (ArrayData_buffers
            (ArrayData_Make string_type 10
               [Some (fresh_buffer 2); Some (fresh_buffer 44);
                Some {| Buffer_size := 0; Buffer_capacity := 0;
                        Buffer_resizable := true |}])) = 3%nat.
Proof.
  destruct (AllocArrayData_shape string_type 10 empty_world
              (snd (AllocArrayData string_type 10 empty_world))
              (ArrayData_Make string_type 10
                 [Some (fresh_buffer 2); Some (fresh_buffer 44);
                  Some {| Buffer_size := 0; Buffer_capacity := 0;
                          Buffer_resizable := true |}]) eq_refl)
    as (_ & _ & Hlen & _).
  exact Hlen.
Defined.

Lemma AllocArrayData_unsupported_type_witness :
  AllocArrayData list_type 10 empty_world =
  (Raise Invalid [Str "Unsupported output data type list<item: int32>"],
   with_pool two_bytes_used (logged [CallAllocateBuffer 2] empty_world)).
Proof.
  apply (AllocArrayData_unsupported_type list_type 10 empty_world (fresh_buffer 2));
    reflexivity.
Defined.

Lemma AllocArrayData_error_origin_witness :
  (AllocArrayData list_type 10 empty_world =
     (Raise Invalid [Str "Unsupported output data type list<item: int32>"],
      with_pool two_bytes_used (logged [CallAllocateBuffer 2] empty_world)) /\
   exists (b0 : Buffer) (p0 : MemoryPool),
     AllocateBuffer 2 (world_pool empty_world) = (Ok b0, p0) /\
     with_pool two_bytes_used (logged [CallAllocateBuffer 2] empty_world) =
     with_pool p0 (logged [CallAllocateBuffer 2] empty_world)) /\
  (@AllocArrayData types small_arrow small_gandiva small_cache string_type 10
     (small_world 0) =
     (Raise (OtherCode 4) [Str "out of memory"],
      @with_pool types small_arrow small_gandiva small_cache 2
        (logged [CallAllocateBuffer 2; CallAllocateBuffer 44] (small_world 0))) /\
   exists (b0 : Buffer) (p0 p' : Z),
     small_allocate 2 0 = (Ok b0, p0) /\
     small_allocate 44 p0 = (Raise (OtherCode 4) [Str "out of memory"], p')) /\
  (@AllocArrayData types small_arrow small_gandiva small_cache int32_type 20
     (small_world 0) =
     (Raise (OtherCode 4) [Str "out of memory"],
      @with_pool types small_arrow small_gandiva small_cache 3
        (logged [CallAllocateBuffer 3; CallAllocateResizableBuffer 80]
           (small_world 0))) /\
   exists (b0 : Buffer) (p0 p' : Z),
     small_allocate 3 0 = (Ok b0, p0) /\
     small_allocate 80 p0 = (Raise (OtherCode 4) [Str "out of memory"], p')).
Proof.
  split; [|split].
  - split; [reflexivity|].
    destruct (AllocArrayData_error_origin list_type 10 empty_world
                (with_pool two_bytes_used (logged [CallAllocateBuffer 2] empty_world))
                Invalid [Str "Unsupported output data type list<item: int32>"]
                eq_refl)
      as [(b0 & p0 & _ & _ & _ & _ & H0 & Hw)
         |[(p' & H0 & _)
          |[(b0 & p0 & p' & Hbin & _)
           |[(b0 & b1 & p0 & p1 & p' & data_len & Hbin & _)
            |(b0 & p0 & p' & bw & _ & Hfix & _)]]]];
      [by exists b0, p0 | discriminate..].
  - split; [reflexivity|].
    destruct (@AllocArrayData_error_origin types small_arrow small_gandiva small_cache
                string_type 10 (small_world 0)
                (@with_pool types small_arrow small_gandiva small_cache 2
                   (logged [CallAllocateBuffer 2; CallAllocateBuffer 44]
                      (small_world 0)))
                (OtherCode 4) [Str "out of memory"] eq_refl)
      as [(b0 & p0 & Hcode & _)
         |[(p' & H0 & _)
          |[(b0 & p0 & p' & _ & H0 & H1 & _)
           |[(b0 & b1 & p0 & p1 & p' & data_len & _ & H0 & H1 & _)
            |(b0 & p0 & p' & bw & Hbin & _)]]]];
      [discriminate..| |injection H0 as <- <-; discriminate|discriminate].
    by exists b0, p0, p'.
  - split; [reflexivity|].
    destruct (@AllocArrayData_error_origin types small_arrow small_gandiva small_cache
                int32_type 20 (small_world 0)
                (@with_pool types small_arrow small_gandiva small_cache 3
                   (logged [CallAllocateBuffer 3; CallAllocateResizableBuffer 80]
                      (small_world 0)))
                (OtherCode 4) [Str "out of memory"] eq_refl)
      as [(b0 & p0 & Hcode & _)
         |[(p' & H0 & _)
          |[(b0 & p0 & p' & Hbin & _)
           |[(b0 & b1 & p0 & p1 & p' & data_len & Hbin & _)
            |(b0 & p0 & p' & bw & _ & _ & Hbw & H0 & H2 & _)]]]];
      [discriminate..|].
    injection Hbw as <-. by exists b0, p0, p'.
Defined.

Lemma key_depends_on_expression_strings_witness :
  ProjectorCacheKey_new a_schema level2 [add_expr; upper_expr] Mode_NONE 111 =
  ProjectorCacheKey_new a_schema level2 [add_expr_twin; upper_expr] Mode_NONE 111.
Proof. apply key_depends_on_expression_strings. reflexivity. Defined.

Lemma Make_builds_on_miss_witness :
  fst (Make (Some a_schema) [add_expr; upper_expr] Mode_NONE (Some level2) 111 5
         empty_world) = Ok first_projector.
Proof.
  rewrite (Make_builds_on_miss a_schema level2 [add_expr; upper_expr] Mode_NONE 111 5
             empty_world [] generator2 generator2);
    [reflexivity|discriminate|reflexivity|reflexivity| |reflexivity].
  repeat constructor.
Defined.

Lemma Make_frame_witness :
  world_pool (snd (Make (Some a_schema) [add_expr; empty_expr] Mode_NONE (Some level2)
                     111 5 empty_world)) = world_pool empty_world.
Proof.
  destruct (Make_frame (Some a_schema) [add_expr; empty_expr] Mode_NONE (Some level2)
              111 5 empty_world
              (snd (Make (Some a_schema) [add_expr; empty_expr] Mode_NONE (Some level2)
                      111 5 empty_world))
              (fst (Make (Some a_schema) [add_expr; empty_expr] Mode_NONE (Some level2)
                      111 5 empty_world)))
    as (Hpool & _); [|exact Hpool].
  apply surjective_pairing.
Defined.

Lemma Make_binds_arguments_witness :
  Projector_schema_ first_projector = a_schema /\
  Projector_configuration_ first_projector = level2 /\
  Projector_output_fields_ first_projector =
    map Expression_result [add_expr; upper_expr] /\
  length (Projector_output_fields_ first_projector) =
    length [add_expr; upper_expr].
Proof.
  apply (Make_binds_arguments a_schema level2 [add_expr; upper_expr] Mode_NONE 111 5
           empty_world
           (snd (Make (Some a_schema) [add_expr; upper_expr] Mode_NONE (Some level2)
                   111 5 empty_world)) []); reflexivity.
Defined.

Lemma Make_call_sequence_witness :
  (snd failing_build = empty_world /\ exists msg, fst failing_build = Raise Invalid msg) \/
  (world_log (snd failing_build) = world_log empty_world ++ [CallKeyNew; CallGetModule] /\
   exists p, fst failing_build = Ok p) \/
  (exists (validated rest : list Expression) (tail : list Event),
      [add_expr; empty_expr; upper_expr] = validated ++ rest /\
      world_log (snd failing_build) =
        world_log empty_world ++ [CallKeyNew; CallGetModule; CallGeneratorMake] ++
        map CallValidate validated ++ tail /\
      (tail = [] /\ (forall p, fst failing_build <> Ok p) \/
       tail = [CallBuild] /\ rest = [] /\ (forall p, fst failing_build <> Ok p) \/
       tail = [CallBuild; CallNewProjector; CallPutModule] /\ rest = [] /\
       exists p, fst failing_build = Ok p)).
Proof.
  apply (Make_call_sequence (Some a_schema) [add_expr; empty_expr; upper_expr]
           Mode_NONE (Some level2) 111 5 empty_world).
  apply surjective_pairing.
Defined.

Lemma Evaluate_wrong_number_of_outputs_witness :
  Evaluate two_output_projector ten_rows None [Some int32_vector] empty_world =
  (Raise Invalid [Str "number of buffers for output_data_vecs is "; Num 1;
                  Str ", expected "; Num 2], empty_world).
Proof.
  apply (Evaluate_wrong_number_of_outputs two_output_projector ten_rows None
           [Some int32_vector] empty_world); [reflexivity|discriminate|discriminate].
Defined.

Lemma Evaluate_first_refused_output_witness :
  Evaluate two_output_projector ten_rows None [Some int32_vector; None] empty_world =
    (Raise Invalid [Str "array for output field "; Str "t"; Str "is null."],
     empty_world) /\
  Evaluate two_output_projector ten_rows None
    [Some int32_vector; Some one_buffer_vector] empty_world =
    (Raise Invalid [Str "ArrayData must have at least 2 buffers"], empty_world) /\
  Evaluate two_output_projector ten_rows None
    [Some int32_vector; Some two_buffer_string_vector] empty_world =
    (Faulted (OutOfBounds 2), empty_world).
Proof.
  destruct (Evaluate_first_refused_output two_output_projector ten_rows None
              [Some int32_vector] [] string_field empty_world eq_refl)
    as (Hnull & Hrefused & Hfault);
    [discriminate|reflexivity|exact sample_first_output_accepted|reflexivity|].
  split; [exact Hnull|]. split.
  - apply (Hrefused one_buffer_vector). reflexivity.
  - apply (Hfault two_buffer_string_vector). reflexivity.
Defined.

Lemma Evaluate_executes_after_validation_witness :
  (snd (Evaluate a_projector ten_rows None [Some short_int32_vector] empty_world) =
     empty_world /\
   forall out,
     fst (Evaluate a_projector ten_rows None [Some short_int32_vector] empty_world) <>
     Ok out) \/
  (snd (Evaluate a_projector ten_rows None [Some short_int32_vector] empty_world) =
     logged [CallExecute] empty_world /\
   fst (Evaluate a_projector ten_rows None [Some short_int32_vector] empty_world) =
     LLVMGenerator_Execute (Projector_llvm_generator_ a_projector) ten_rows None
       [Some short_int32_vector] /\
   ValidateEvaluateArgsCommon a_projector ten_rows = Ok tt /\
   length [Some short_int32_vector] = length (Projector_output_fields_ a_projector) /\
   forall i p, [Some short_int32_vector] !! i = Some p ->
               output_accepted a_projector (effective_num_rows ten_rows None) i p).
Proof.
  apply (Evaluate_executes_after_validation a_projector ten_rows None
           [Some short_int32_vector] empty_world).
  apply surjective_pairing.
Defined.

Lemma Evaluate_executes_accepted_outputs_witness :
  Evaluate a_projector ten_rows None [Some int32_vector] empty_world =
  (Ok [Some int32_vector], logged [CallExecute] empty_world).
Proof.
  apply (Evaluate_executes_accepted_outputs a_projector ten_rows None
           [Some int32_vector] empty_world); [reflexivity|discriminate|reflexivity|].
  intros [|i] p; [|done]. intros [= <-].
  exists int32_vector, int32_field. repeat split.
Defined.

Lemma Evaluate_alloc_null_arguments_witness :
  (forall pool,
      Evaluate_alloc a_projector ten_rows None pool None empty_world =
      (Raise Invalid [Str "Output must be non-null."], empty_world)) /\
  (forall output,
      Evaluate_alloc a_projector ten_rows None None (Some output) empty_world =
      (Raise Invalid [Str "Memory pool must be non-null."], empty_world)).
Proof.
  apply (Evaluate_alloc_null_arguments a_projector ten_rows None empty_world);
    [reflexivity|discriminate].
Defined.

Lemma alloc_output_data_vecs_accepted_witness :
  Forall2 (fun field p =>
             exists data,
               p = Some data /\
               ArrayData_type data = Field_type field /\
               ArrayData_length data = 10 /\
               ValidateArrayDataCapacity data field 10 = Ok tt)
    [int32_field; string_field]
    (match fst (alloc_output_data_vecs [int32_field; string_field] 10 empty_world) with
     | Ok vecs => vecs
     | _ => []
     end).
Proof.
  apply (alloc_output_data_vecs_accepted [int32_field; string_field] 10 empty_world
           (snd (alloc_output_data_vecs [int32_field; string_field] 10 empty_world)));
    [exact sample_pool_capacity|exact sample_pool_resizable_capacity|reflexivity].
Defined.

Lemma Evaluate_alloc_runs_witness :
  fst (Evaluate_alloc two_output_projector ten_rows None (Some the_pool)
         (Some [MakeArray None]) empty_world) =
  match fst (alloc_output_data_vecs [int32_field; string_field] 10 empty_world) with
  | Ok vecs => Ok (map MakeArray vecs)
  | Raise code msg => Raise code msg
  | Faulted f => Faulted f
  end.
Proof.
  rewrite (Evaluate_alloc_runs two_output_projector ten_rows None [MakeArray None]
             empty_world); [reflexivity|reflexivity|discriminate].
Defined.

Lemma Evaluate_alloc_frame_witness :
  evaluation_frame empty_world
    (snd (Evaluate_alloc two_output_projector ten_rows None (Some the_pool) (Some [])
            empty_world)).
Proof.
  apply (Evaluate_alloc_frame two_output_projector ten_rows None (Some the_pool)
           (Some []) empty_world _
           (fst (Evaluate_alloc two_output_projector ten_rows None (Some the_pool)
                   (Some []) empty_world))).
  apply surjective_pairing.
Defined.

End OnSampleFurther.
